(** * Kernel communication layer of the tenant data browser

    A shallow embedding of [src/components/kernelCommunication.tsx] (the
    shared kernel session, the readiness waiter, [queryKernel] and
    [parseKernelOutputJSON]) and of the two versions of
    [fetchFilteredDatabases] (kernel-backed and server-API-backed), with
    the properties the specification states about them. *)

From Stdlib Require Import String Ascii List Bool Arith NArith DecimalString Lia.
From stdpp Require Import base tactics option list strings.
Import ListNotations.
Open Scope string_scope.
Set Warnings "-register-all".

(** ** JavaScript values, exceptions and completion records *)

Module JS.

(** The values that flow through this code: what [JSON.parse] builds, plus
    [undefined].  A text is a [string] whose characters stand for the code
    units of the JavaScript string.  A number is carried by its canonical
    rendering, the text [String(n)] returns; [+0] and [-0] both render as
    [0].  An object is the list of its own properties in insertion order,
    one entry per key. *)
Inductive value : Type :=
| VUndefined
| VNull
| VBool (b : bool)
| VNum (rendering : string)
| VStr (s : string)
| VArr (elements : list value)
| VObj (properties : list (string * value)).

(** The values this code can see thrown. *)
Inductive KernelErrorType : Type :=
| not_available
| not_ready
| execution_error
| timeout
| dead.

Record KernelError : Type := mkKernelError {
  message : string;
  name : string;
  type : KernelErrorType;
  ename : option string;
  evalue : option string;
  traceback : option (list string)
}.

Inductive exn : Type :=
| ExnKernelError (e : KernelError)
| ExnError (msg : string)
| ExnTypeError
| ExnSyntaxError.

(** A synchronous computation either returns or throws. *)
Inductive result (A : Type) : Type :=
| Ok (a : A)
| Throw (e : exn).
Arguments Ok {A} a.
Arguments Throw {A} e.

Definition bind {A B} (r : result A) (k : A -> result B) : result B :=
  match r with
  | Ok a => k a
  | Throw e => Throw e
  end.

(** [try { body } catch (error) { handler }] *)
Definition try_catch {A} (body : result A) (handler : exn -> result A)
  : result A :=
  match body with
  | Ok a => Ok a
  | Throw e => handler e
  end.

(** The state of a promise as an observer sees it. *)
Inductive promise (A : Type) : Type :=
| Pending
| Fulfilled (a : A)
| Rejected (e : exn).
Arguments Pending {A}.
Arguments Fulfilled {A} a.
Arguments Rejected {A} e.

(** [await p] followed by the rest of an async function. *)
Definition await {A B} (p : promise A) (k : A -> promise B) : promise B :=
  match p with
  | Pending => Pending
  | Fulfilled a => k a
  | Rejected e => Rejected e
  end.

(** The promise an async function returns when its body runs to completion
    without suspending. *)
Definition settled {A} (r : result A) : promise A :=
  match r with
  | Ok a => Fulfilled a
  | Throw e => Rejected e
  end.

(** ToBoolean. [JSON.parse] never yields NaN; it is listed for completeness. *)
Definition truthy (v : value) : bool :=
  match v with
  | VUndefined | VNull => false
  | VBool b => b
  | VNum r => negb (String.eqb r "0") && negb (String.eqb r "NaN")
  | VStr s => negb (String.eqb s "")
  | VArr _ | VObj _ => true
  end.

(** [typeof v === 'object'] *)
Definition typeof_object (v : value) : bool :=
  match v with
  | VNull | VArr _ | VObj _ => true
  | _ => false
  end.

Fixpoint lookup_property (k : string) (ps : list (string * value))
  : option value :=
  match ps with
  | [] => None
  | (k', v) :: rest => if String.eqb k k' then Some v else lookup_property k rest
  end.

(** [v.k] for the property names this code reads ([data], [text/plain],
    [databases], [prefix], [user_namespace_prefix],
    [tenant_namespace_prefix]); none of them is a built-in property of a
    string, number, boolean, array or of [Object.prototype], so only an own
    property of an object can answer. *)
Definition get (v : value) (k : string) : result value :=
  match v with
  | VUndefined | VNull => Throw ExnTypeError
  | VObj ps => Ok (default VUndefined (lookup_property k ps))
  | _ => Ok VUndefined
  end.

(** [v?.k] *)
Definition get_optional (v : value) (k : string) : result value :=
  match v with
  | VUndefined | VNull => Ok VUndefined
  | _ => get v k
  end.

(** [k in v], for the same property names. *)
Definition has_property (k : string) (v : value) : result bool :=
  match v with
  | VObj ps => Ok (bool_decide (is_Some (lookup_property k ps)))
  | VArr _ => Ok false
  | _ => Throw ExnTypeError
  end.

(** ToString.  An array joins its elements with commas, [null] and
    [undefined] elements rendering as the empty text; a plain object renders
    through [Object.prototype.toString] unless an own [toString] property (a
    JSON value, hence not callable) shadows it, in which case no conversion
    is left and a TypeError is thrown. *)
Fixpoint ToString (v : value) : result string :=
  match v with
  | VUndefined => Ok "undefined"
  | VNull => Ok "null"
  | VBool true => Ok "true"
  | VBool false => Ok "false"
  | VNum r => Ok r
  | VStr s => Ok s
  | VArr l =>
      (fix join (l : list value) : result string :=
         match l with
         | [] => Ok ""
         | x :: rest =>
             bind (match x with
                   | VUndefined | VNull => Ok ""
                   | _ => ToString x
                   end)
               (fun s =>
                  match rest with
                  | [] => Ok s
                  | _ => bind (join rest) (fun r => Ok (s ++ "," ++ r))
                  end)
         end) l
  | VObj ps =>
      match lookup_property "toString" ps with
      | Some _ => Throw ExnTypeError
      | None => Ok "[object Object]"
      end
  end.

(** [db.startsWith(prefix)]: only a string has the method; the argument is
    converted with ToString. *)
Definition startsWith (db prefix : value) : result bool :=
  match db with
  | VStr s => bind (ToString prefix) (fun p => Ok (String.prefix p s))
  | _ => Throw ExnTypeError
  end.

(** [l.filter(db => db.startsWith(prefix))] on the elements of an array; the
    callback runs on the elements in order and the first exception ends the
    loop.  An element that passes is a string. *)
Fixpoint filter_startsWith (l : list value) (prefix : value)
  : result (list string) :=
  match l with
  | [] => Ok []
  | db :: rest =>
      bind (startsWith db prefix) (fun keep =>
      bind (filter_startsWith rest prefix) (fun kept =>
      match db with
      | VStr s => Ok (if keep then s :: kept else kept)
      | _ => Ok kept
      end))
  end.

(** [v.filter(db => db.startsWith(prefix))]: only an array has a callable
    [filter]. *)
Definition array_filter_startsWith (v prefix : value) : result (list string) :=
  match v with
  | VArr l => filter_startsWith l prefix
  | _ => Throw ExnTypeError
  end.

End JS.

(** ** The engine connection as the JupyterLab services expose it *)

Module Kernel.

(** [Kernel.Status] *)
Inductive Status : Type :=
| unknown
| starting
| idle
| busy
| terminating
| restarting
| autorestarting
| dead.

Definition Status_eqb (a b : Status) : bool :=
  match a, b with
  | unknown, unknown | starting, starting | idle, idle | busy, busy
  | terminating, terminating | restarting, restarting
  | autorestarting, autorestarting | dead, dead => true
  | _, _ => false
  end.

(** [Kernel.IKernelConnection], as far as this code reads it. *)
Record IKernelConnection : Type := { status : Status }.

(** [ISessionConnection] and [SessionContext]: [sessionContext.session] and
    [session.kernel] may each be null. *)
Record ISessionConnection : Type := { kernel : option IKernelConnection }.
Record SessionContext : Type := { session : option ISessionConnection }.

Inductive StreamName : Type := stdout | stderr.

(** [KernelMessage.IIOPubMessage], by [header.msg_type]. *)
Inductive IIOPubMessage : Type :=
| execute_result (content : JS.value)
| display_data (content : JS.value)
| update_display_data (content : JS.value)
| stream (name : StreamName) (text : string)
| error (ename evalue : string) (traceback : option (list string))
| other (msg_type : string).

End Kernel.

Import JS.

(** ** src/components/kernelCommunication.tsx *)

Module KernelCommunication.

Definition ERROR_MESSAGES (t : KernelErrorType) : string :=
  match t with
  | not_available => "Kernel is not available"
  | not_ready => "Kernel is not ready"
  | timeout => "Request timed out"
  | dead => "Kernel has stopped"
  | execution_error => "Execution error"
  end.

(** The optional [details] argument of the [KernelError] constructor. *)
Record ErrorDetails : Type := {
  details_ename : option string;
  details_evalue : option string;
  details_traceback : option (list string)
}.

(** A string-or-undefined used as a condition. *)
Definition truthy_text (o : option string) : bool :=
  match o with
  | Some s => negb (String.eqb s "")
  | None => false
  end.

(** [new KernelError(type, details)] *)
Definition new_KernelError (t : KernelErrorType) (details : option ErrorDetails)
  : KernelError :=
  let baseMessage := ERROR_MESSAGES t in
  let detailMessage :=
    match details with
    | Some d =>
        if truthy_text (details_evalue d)
        then (if truthy_text (details_ename d)
              then default "" (details_ename d) else "Error")
             ++ ": " ++ default "" (details_evalue d)
        else ""
    | None => ""
    end in
  {| message := if String.eqb detailMessage "" then baseMessage else detailMessage;
     name := "KernelError";
     type := t;
     ename := details ≫= details_ename;
     evalue := details ≫= details_evalue;
     traceback := details ≫= details_traceback |}.

Definition SESSION_NAME : string := "tenant-data-browser".
Definition KERNEL_NAME : string := "python3".
Definition KERNEL_START_TIMEOUT_MS : N := 60000.
Definition KERNEL_EXEC_TIMEOUT_MS : N := 30000.

(** *** getOrCreateSharedSession

    The three module-level variables are the fields of [State] that carry
    their names.  The asynchronous code is run one event at a time: a call of
    [getOrCreateSharedSession] up to its first suspension, the completion of
    the initialization body together with the continuations it resumes, and
    one emission of the shared session's [statusChanged] signal together
    with the handler it runs. *)

(** What the service manager and the fresh session context answer during one
    run of the initialization body. *)
Inductive StartRace : Type :=
| KernelStarted
| KernelFailed (e : exn)
| StartTimerFirst.

Record Services : Type := {
  kernelspecs_ready : result unit;
  kernelspecs_specs : option (list string);
  initialize : result bool;
  changeKernel_race : StartRace
}.

(** [names.join(', ')] *)
Fixpoint join_names (names : list string) : string :=
  match names with
  | [] => ""
  | [n] => n
  | n :: rest => n ++ ", " ++ join_names rest
  end.

Definition decimal (n : N) : string :=
  DecimalString.NilZero.string_of_uint (N.to_uint n).

(** The body of the async arrow function assigned to [sharedSessionPromise],
    up to the point where it connects the death monitor: its completion and
    the number of [changeKernel] requests it made. *)
Definition initialization (m : Services) : result unit * nat :=
  match kernelspecs_ready m with
  | Throw e => (Throw e, 0)
  | Ok _ =>
      let specs := kernelspecs_specs m in
      let found :=
        match specs with
        | Some names => existsb (String.eqb KERNEL_NAME) names
        | None => false
        end in
      if negb found then
        let available :=
          match specs with
          | Some names => join_names names
          | None => "none"
          end in
        (Throw (ExnError ("Kernel '" ++ KERNEL_NAME ++ "' not found. "
                          ++ "Available: " ++ available)), 0)
      else
        match initialize m with
        | Throw e => (Throw e, 0)
        | Ok needsKernel =>
            if needsKernel then
              match changeKernel_race m with
              | KernelStarted => (Ok tt, 1)
              | KernelFailed e => (Throw e, 1)
              | StartTimerFirst =>
                  (Throw (ExnError ("Timeout starting kernel after "
                                    ++ decimal (KERNEL_START_TIMEOUT_MS / 1000)
                                    ++ "s")), 1)
              end
            else (Ok tt, 0)
        end
  end.

Definition Caller : Type := nat.
Definition PromiseId : Type := nat.
Definition SessionId : Type := nat.

(** Whether a suspended call is the one that assigned [sharedSessionPromise]
    (it awaits inside the try block) or one that returned the promise it
    found. *)
Inductive Role : Type := Creator | Follower.

Record State : Type := mkState {
  sharedSessionContext : option SessionId;
  sharedSessionPromise : option PromiseId;
  sharedSessionError : option exn;
  awaiting : list (Caller * Role * PromiseId);
  returned : list (Caller * result SessionId);
  initializations : nat;
  kernelRequests : nat;
  deathMonitors : nat
}.

Definition initial : State :=
  mkState None None None [] [] 0 0 0.

(** A call, up to its return or its first suspension. *)
Definition getOrCreateSharedSession (c : Caller) (s : State) : State :=
  match sharedSessionContext s with
  | Some sc =>
      mkState (sharedSessionContext s) (sharedSessionPromise s)
        (sharedSessionError s) (awaiting s) (returned s ++ [(c, Ok sc)])
        (initializations s) (kernelRequests s) (deathMonitors s)
  | None =>
      match sharedSessionPromise s with
      | Some p =>
          mkState None (Some p) (sharedSessionError s)
            (awaiting s ++ [(c, Follower, p)]) (returned s)
            (initializations s) (kernelRequests s) (deathMonitors s)
      | None =>
          let p := initializations s in
          mkState None (Some p) (sharedSessionError s)
            (awaiting s ++ [(c, Creator, p)]) (returned s)
            (S (initializations s)) (kernelRequests s) (deathMonitors s)
      end
  end.

(** The continuation of one suspended call once its promise has settled
    with [r]: a follower settles with [r]; the creator settles with [r]
    too, after clearing [sharedSessionPromise] in its catch block when [r]
    is a rejection. *)
Definition resume (r : result SessionId) (w : Caller * Role * PromiseId)
  (s : State) : State :=
  let '(c, role, _) := w in
  let cleared :=
    match role, r with
    | Creator, Throw _ => None
    | _, _ => sharedSessionPromise s
    end in
  mkState (sharedSessionContext s) cleared (sharedSessionError s)
    (awaiting s) (returned s ++ [(c, r)])
    (initializations s) (kernelRequests s) (deathMonitors s).

Definition resume_all (r : result SessionId) (p : PromiseId) (s : State)
  : State :=
  let '(mine, others) :=
    List.partition (fun w => Nat.eqb (snd w) p) (awaiting s) in
  fold_left (fun s w => resume r w s) mine
    (mkState (sharedSessionContext s) (sharedSessionPromise s)
       (sharedSessionError s) others (returned s)
       (initializations s) (kernelRequests s) (deathMonitors s)).

(** The in-flight initialization runs to its end with the services
    answering [m]; the session context it builds is identified with the
    promise of the run. *)
Definition initialization_settles (m : Services) (s : State) : State :=
  match sharedSessionContext s, sharedSessionPromise s with
  | None, Some p =>
      let '(r, requests) := initialization m in
      match r with
      | Ok _ =>
          resume_all (Ok p) p
            (mkState (Some p) (Some p) (sharedSessionError s)
               (awaiting s) (returned s) (initializations s)
               (kernelRequests s + requests) (S (deathMonitors s)))
      | Throw e =>
          resume_all (Throw e) p
            (mkState None (Some p) (sharedSessionError s)
               (awaiting s) (returned s) (initializations s)
               (kernelRequests s + requests) (deathMonitors s))
      end
  | _, _ => s
  end.

(** One run of the handler connected to [statusChanged]: [status] is what
    [sessionContext.session?.kernel?.status] reads, [reconnect] how the
    awaited [changeKernel] ends. *)
Definition on_statusChanged (status : option Kernel.Status)
  (reconnect : result unit) (s : State) : State :=
  match status with
  | Some Kernel.dead =>
      mkState (sharedSessionContext s) (sharedSessionPromise s)
        (match reconnect with
         | Ok _ => None
         | Throw _ => Some (ExnError "Kernel died and reconnection failed")
         end)
        (awaiting s) (returned s) (initializations s)
        (S (kernelRequests s)) (deathMonitors s)
  | _ => s
  end.

(** The signal runs every connected handler. *)
Definition statusChanged_emits (status : option Kernel.Status)
  (reconnect : result unit) (s : State) : State :=
  Nat.iter (deathMonitors s) (on_statusChanged status reconnect) s.

Inductive Event : Type :=
| Acquire (c : Caller)
| InitializationSettles (m : Services)
| StatusChanged (status : option Kernel.Status) (reconnect : result unit).

Definition step (s : State) (ev : Event) : State :=
  match ev with
  | Acquire c => getOrCreateSharedSession c s
  | InitializationSettles m => initialization_settles m s
  | StatusChanged status reconnect => statusChanged_emits status reconnect s
  end.

Definition run (evs : list Event) (s : State) : State := fold_left step evs s.

(** *** waitForKernelReady

    Time is the order of events: the status changes the kernel goes through
    and the expiry of the timer. *)

Record Waiter : Type := mkWaiter {
  kernel_status : Kernel.Status;
  ready : promise unit;
  timer_armed : bool;
  observer_connected : bool
}.

Definition readyStatuses : list Kernel.Status := [Kernel.idle].
Definition badStatuses : list Kernel.Status := [Kernel.dead; Kernel.unknown].

Definition includes (l : list Kernel.Status) (s : Kernel.Status) : bool :=
  existsb (Kernel.Status_eqb s) l.

(** [new KernelError(kernel.status === 'dead' ? 'dead' : 'not_ready')] *)
Definition bad_status_error (st : Kernel.Status) : exn :=
  ExnKernelError
    (new_KernelError (if Kernel.Status_eqb st Kernel.dead then dead else not_ready)
       None).

(** Settling a promise takes effect once. *)
Definition settle {A} (p new : promise A) : promise A :=
  match p with
  | Pending => new
  | _ => p
  end.

(** The call up to its return: either it has settled already, or the timer
    is armed and [onStatusChanged] is connected. *)
Definition waitForKernelReady (kernel : Kernel.IKernelConnection) : Waiter :=
  let st := Kernel.status kernel in
  if includes readyStatuses st then mkWaiter st (Fulfilled tt) false false
  else if includes badStatuses st then
    mkWaiter st (Rejected (bad_status_error st)) false false
  else mkWaiter st Pending true true.

Definition onStatusChanged (w : Waiter) : Waiter :=
  let st := kernel_status w in
  if includes readyStatuses st then
    mkWaiter st (settle (ready w) (Fulfilled tt)) false false
  else if includes badStatuses st then
    mkWaiter st (settle (ready w) (Rejected (bad_status_error st))) false false
  else w.

(** The callback passed to [setTimeout]. *)
Definition onWaitTimeout (w : Waiter) : Waiter :=
  mkWaiter (kernel_status w)
    (settle (ready w) (Rejected (ExnKernelError (new_KernelError timeout None))))
    false (observer_connected w).

Inductive WaitEvent : Type :=
| StatusBecomes (st : Kernel.Status)
| WaitTimerFires.

Definition wait_step (w : Waiter) (ev : WaitEvent) : Waiter :=
  match ev with
  | StatusBecomes st =>
      let w' := mkWaiter st (ready w) (timer_armed w) (observer_connected w) in
      if observer_connected w then onStatusChanged w' else w'
  | WaitTimerFires => if timer_armed w then onWaitTimeout w else w
  end.

Definition wait_run (evs : list WaitEvent) (w : Waiter) : Waiter :=
  fold_left wait_step evs w.

(** *** queryKernel *)

Record QueryResult : Type := mkQueryResult {
  data : option value;
  error : option KernelError
}.

Inductive ConsoleLine : Type :=
| console_warn (label text : string)
| console_debug (label text : string).

(** The state the executor of the result promise closes over. *)
Record Execution : Type := mkExecution {
  hasResolved : bool;
  resolution : option QueryResult;
  resolveCalls : list QueryResult;
  console : list ConsoleLine
}.

Definition requestExecute : Execution := mkExecution false None [] [].

(** [hasResolved = true; resolve(r)] *)
Definition resolve (r : QueryResult) (x : Execution) : Execution :=
  mkExecution true
    (match resolution x with
     | None => Some r
     | Some first => Some first
     end)
    (resolveCalls x ++ [r]) (console x).

(** [future.onIOPub] *)
Definition onIOPub (msg : Kernel.IIOPubMessage) (x : Execution) : Execution :=
  match msg with
  | Kernel.execute_result content
  | Kernel.display_data content
  | Kernel.update_display_data content =>
      if negb (hasResolved x)
      then resolve (mkQueryResult (Some content) None) x
      else x
  | Kernel.stream name text =>
      mkExecution (hasResolved x) (resolution x) (resolveCalls x)
        (console x ++
           [match name with
            | Kernel.stderr => console_warn "Kernel stderr:" text
            | Kernel.stdout => console_debug "Kernel stdout:" text
            end])
  | Kernel.error en ev tb =>
      if negb (hasResolved x)
      then resolve
             (mkQueryResult None
                (Some (new_KernelError execution_error
                         (Some {| details_ename := Some en;
                                  details_evalue := Some ev;
                                  details_traceback := tb |})))) x
      else x
  | Kernel.other _ => x
  end.

(** The callback passed to [setTimeout]. *)
Definition onExecTimeout (x : Execution) : Execution :=
  if negb (hasResolved x)
  then resolve (mkQueryResult None (Some (new_KernelError timeout None))) x
  else x.

Inductive ExecEvent : Type :=
| IOPub (msg : Kernel.IIOPubMessage)
| ExecTimerFires.

Definition exec_step (x : Execution) (ev : ExecEvent) : Execution :=
  match ev with
  | IOPub msg => onIOPub msg x
  | ExecTimerFires => onExecTimeout x
  end.

Definition exec_run (evs : list ExecEvent) (x : Execution) : Execution :=
  fold_left exec_step evs x.

(** The catch block around the readiness wait. *)
Definition on_wait_error (e : exn) : QueryResult :=
  match e with
  | ExnKernelError k => mkQueryResult None (Some k)
  | _ => mkQueryResult None (Some (new_KernelError not_ready None))
  end.

(** What happens around one call: the status events seen while waiting for
    readiness, and the events of the execution request. *)
Record World : Type := {
  status_events : list WaitEvent;
  exec_events : list ExecEvent
}.

(** [sessionContext?.session?.kernel] *)
Definition kernel_of (sessionContext : option Kernel.SessionContext)
  : option Kernel.IKernelConnection :=
  match sessionContext with
  | Some sc =>
      match Kernel.session sc with
      | Some session => Kernel.kernel session
      | None => None
      end
  | None => None
  end.

(** The promise [queryKernel] returns, as it stands once the events of [w]
    have happened.  [Rejected] would be the function throwing. *)
Definition queryKernel (code : string)
  (sessionContext : option Kernel.SessionContext) (w : World)
  : promise QueryResult :=
  match kernel_of sessionContext with
  | None => Fulfilled (mkQueryResult None (Some (new_KernelError not_available None)))
  | Some kernel =>
      match ready (wait_run (status_events w) (waitForKernelReady kernel)) with
      | Pending => Pending
      | Rejected e => Fulfilled (on_wait_error e)
      | Fulfilled _ =>
          match resolution (exec_run (exec_events w) requestExecute) with
          | Some result => Fulfilled result
          | None => Pending
          end
      end
  end.

(** *** parseKernelOutputJSON *)

(** [rawText.replace(/^'|'$/g, '')], read off the pattern: scanning left to
    right, a quote is removed when it stands at the start of the text (first
    alternative) or at its end (second alternative); every other character
    is kept. *)
Fixpoint replace_from (at_start : bool) (s : string) : string :=
  match s with
  | EmptyString => EmptyString
  | String c rest =>
      let at_end := match rest with EmptyString => true | _ => false end in
      if Ascii.eqb c "'"%char && (at_start || at_end)
      then replace_from false rest
      else String c (replace_from false rest)
  end.

Definition replace_edge_quotes (s : string) : string := replace_from true s.

(** The method call [rawText.replace(...)] on whatever value the payload
    holds: only a string has the method. *)
Definition call_replace (rawText : value) : result string :=
  match rawText with
  | VStr s => Ok (replace_edge_quotes s)
  | _ => Throw ExnTypeError
  end.

Section Parser.

(** [JSON.parse] of the runtime: [None] stands for the SyntaxError it throws
    on a text that is not JSON. *)
Variable JSON_parse : string -> option value.

Definition call_JSON_parse (text : string) : result value :=
  match JSON_parse text with
  | Some v => Ok v
  | None => Throw ExnSyntaxError
  end.

(** [output] is [VUndefined] when the argument is left out.  The returned
    [VUndefined] is the function's "no value".  The console calls only
    write diagnostics and are left out. *)
Definition parseKernelOutputJSON (output : value) : result value :=
  bind (get_optional output "data") (fun data =>
  if truthy data && typeof_object data then
    bind (has_property "text/plain" data) (fun present =>
    if present then
      try_catch
        (bind (get data "text/plain") (fun rawText =>
         bind (call_replace rawText) (fun cleanedText =>
         call_JSON_parse cleanedText)))
        (fun _ => Ok VUndefined)
    else Ok VUndefined)
  else Ok VUndefined).

End Parser.

End KernelCommunication.

(** ** fetchFilteredDatabases

    The repository holds two versions of the function: one asks the kernel
    (through [queryKernel] and [parseKernelOutputJSON]), the other asks the
    server extension (through [fetchDatabases]).  From the test of
    [response?.databases] to the end the two bodies are the same text,
    embedded once as [filter_by_namespace_prefix]. *)

Module NamespaceFilter.

(** The property of [response.prefix] the caller selects:
    [tenant === undefined] picks the user's own prefix. *)
Definition selected_key (tenant : option string) : string :=
  match tenant with
  | None => "user_namespace_prefix"
  | Some _ => "tenant_namespace_prefix"
  end.

Definition filter_by_namespace_prefix (tenant : option string)
  (response : value) : result (list string) :=
  bind (get_optional response "databases") (fun databases =>
  if negb (truthy databases) then Ok []
  else
    bind (get response "prefix") (fun record =>
    bind (get record (selected_key tenant)) (fun prefix =>
    if truthy prefix
    then array_filter_startsWith databases prefix
    else Ok []))).

(** The payload the code is typed against. *)
Record INamespacePrefixResponse : Type := {
  username : string;
  user_namespace_prefix : string;
  tenant : option string;
  tenant_namespace_prefix : option string
}.

Record IDatabasesResponse : Type := {
  databases : list string;
  prefix : INamespacePrefixResponse
}.

Definition nullable (o : option string) : value :=
  match o with
  | Some s => VStr s
  | None => VNull
  end.

(** The value [JSON.parse] builds from the encoding of a typed payload. *)
Definition to_value (r : IDatabasesResponse) : value :=
  VObj [("databases", VArr (map VStr (databases r)));
        ("prefix",
         VObj [("username", VStr (username (prefix r)));
               ("user_namespace_prefix", VStr (user_namespace_prefix (prefix r)));
               ("tenant", nullable (tenant (prefix r)));
               ("tenant_namespace_prefix",
                nullable (tenant_namespace_prefix (prefix r)))])].

(** The prefix the caller selects in a typed payload. *)
Definition selected_prefix (t : option string) (r : IDatabasesResponse)
  : option string :=
  match t with
  | None => Some (user_namespace_prefix (prefix r))
  | Some _ => tenant_namespace_prefix (prefix r)
  end.

(** A selected property read as string-or-null: an absent property and
    [null] both count as no prefix; any other kind of value is not one. *)
Definition as_prefix (o : option value) : option (option string) :=
  match o with
  | None | Some VNull | Some VUndefined => Some None
  | Some (VStr s) => Some (Some s)
  | Some _ => None
  end.

End NamespaceFilter.

Module KernelQueries.

Import KernelCommunication NamespaceFilter.

Definition dquote : string := String (ascii_of_nat 34) EmptyString.

Definition BERDL_METHODS_IMPORT : string :=
  "import tenant_data_browser; (get_table_schema, get_databases, get_tables, get_my_groups, get_namespace_prefix, using_mocks) = tenant_data_browser.get_cdm_methods();".

(** The code string sent to the kernel. *)
Definition query_code (tenant : option string) : string :=
  let tenantParam :=
    match tenant with
    | None => "None"
    | Some t => dquote ++ t ++ dquote
    end in
  "import json; " ++ BERDL_METHODS_IMPORT
  ++ " databases = get_databases(use_hms=True, return_json=False, filter_by_namespace=True); prefix_response = get_namespace_prefix(tenant="
  ++ tenantParam
  ++ ", return_json=False); result = {" ++ dquote ++ "databases" ++ dquote
  ++ ": databases, " ++ dquote ++ "prefix" ++ dquote
  ++ ": prefix_response}; json.dumps(result)".

(** The [data] field handed to the parser: [undefined] when unset. *)
Definition data_value (q : QueryResult) : value :=
  default VUndefined (data q).

Section Fetch.

Variable JSON_parse : string -> option value.

(** What follows [await queryKernel(...)]. *)
Definition after_query (tenant : option string) (q : QueryResult)
  : result (list string) :=
  match error q with
  | Some e => Throw (ExnKernelError e)
  | None =>
      bind (parseKernelOutputJSON JSON_parse (data_value q)) (fun response =>
      filter_by_namespace_prefix tenant response)
  end.

Definition fetchFilteredDatabases
  (sessionContext : option Kernel.SessionContext) (tenant : option string)
  (w : World) : promise (list string) :=
  await (queryKernel (query_code tenant) sessionContext w) (fun q =>
  settled (after_query tenant q)).

End Fetch.

End KernelQueries.

Module ApiQueries.

Import NamespaceFilter.

(** [fetchDatabases] is the HTTP client of the server extension; the state
    of the promise it returned is the argument [fetched]. *)
Definition fetchFilteredDatabases (fetched : promise value)
  (tenant : option string) : promise (list string) :=
  await fetched (fun response =>
  settled (filter_by_namespace_prefix tenant response)).

End ApiQueries.

(** ** src/api.ts *)

Module Api.

Definition API_BASE : string := "api/tenant-data-browser".

(** The answer to one request as [serverGet] reads it; [json] is the promise
    [response.json()] returns: the decoded body, or the rejection a body
    that is not JSON gives. *)
Record Response : Type := {
  ok : bool;
  status : N;
  json : promise value
}.

(** What the page puts around the client: the base URL of the server
    settings, [URLExt.join] and the form encoding of [URLSearchParams] from
    the libraries, and the promise [ServerConnection.makeRequest] returns
    for each URL. *)
Record Environment : Type := {
  baseUrl : string;
  URLExt_join : string -> string -> string -> string;
  urlencode : string -> string;
  makeRequest : string -> promise Response
}.

(** [URLSearchParams]: its name-value pairs in order. *)
Definition URLSearchParams : Type := list (string * string).

(** [params.set(name, value)]: the first pair of that name takes the value
    and the others of that name go; without one the pair is appended. *)
Fixpoint params_set (name val : string) (ps : URLSearchParams)
  : URLSearchParams :=
  match ps with
  | [] => [(name, val)]
  | (k, v) :: rest =>
      if String.eqb k name
      then (k, val)
           :: List.filter (fun kv => negb (String.eqb (fst kv) name)) rest
      else (k, v) :: params_set name val rest
  end.

(** [params.toString()] *)
Fixpoint params_toString (enc : string -> string) (ps : URLSearchParams)
  : string :=
  match ps with
  | [] => ""
  | [(k, v)] => enc k ++ "=" ++ enc v
  | (k, v) :: rest => enc k ++ "=" ++ enc v ++ "&" ++ params_toString enc rest
  end.

(** The URL [serverGet] asks for. *)
Definition request_url (env : Environment) (path : string)
  (params : option URLSearchParams) : string :=
  let requestUrl := URLExt_join env (baseUrl env) API_BASE path in
  match params with
  | Some ps =>
      let paramStr := params_toString (urlencode env) ps in
      if negb (String.eqb paramStr "")
      then requestUrl ++ "?" ++ paramStr
      else requestUrl
  | None => requestUrl
  end.

(** [throw new Error(message)]: the constructor converts a message that is
    not [undefined] with ToString, which may itself throw. *)
Definition throw_new_Error {A} (message : value) : result A :=
  match message with
  | VUndefined => Throw (ExnError "")
  | _ =>
      match ToString message with
      | Ok m => Throw (ExnError m)
      | Throw e => Throw e
      end
  end.

(** The value of [message] when the try block around [response.json()] is
    left, by its end or through the empty catch. *)
Definition failure_message (response : Response) : promise value :=
  let message :=
    VStr ("Request failed: " ++ KernelCommunication.decimal (status response)) in
  match json response with
  | Pending => Pending
  | Fulfilled data =>
      match get data "error" with
      | Ok e => Fulfilled (if truthy e then e else message)
      | Throw _ => Fulfilled message
      end
  | Rejected _ => Fulfilled message
  end.

Definition serverGet (env : Environment) (path : string)
  (params : option URLSearchParams) : promise value :=
  await (makeRequest env (request_url env path params)) (fun response =>
  if negb (ok response)
  then await (failure_message response) (fun message =>
       settled (throw_new_Error message))
  else json response).

Definition fetchGroups (env : Environment) : promise value :=
  serverGet env "groups" None.

(** The parameters [fetchDatabases] and [fetchNamespacePrefix] build. *)
Definition tenant_params (tenant : option string) : URLSearchParams :=
  match tenant with
  | Some t => params_set "tenant" t []
  | None => []
  end.

Definition fetchDatabases (env : Environment) (tenant : option string)
  : promise value :=
  serverGet env "databases" (Some (tenant_params tenant)).

Definition fetchTables (env : Environment) (database : string)
  : promise value :=
  serverGet env "tables" (Some [("database", database)]).

Definition fetchSchema (env : Environment) (database table : string)
  : promise value :=
  serverGet env "schema" (Some [("database", database); ("table", table)]).

Definition fetchNamespacePrefix (env : Environment) (tenant : option string)
  : promise value :=
  serverGet env "namespace-prefix" (Some (tenant_params tenant)).

End Api.

(** ** The target of a tenant tab

    The type is declared in [tenantTab], outside these sources; its three
    shapes are the object literals the tree provider builds and the fields
    the tab content reads.  A field that may be [undefined] or [null] is an
    option. *)

Module TenantTab.

Inductive TenantTabTarget : Type :=
| TenantTarget (tenant : option string)
| DatabaseTarget (databaseName : string) (tenant : option string)
| TableTarget (tableName : string) (databaseName : option string)
    (tenant : option string).

Definition target_tenant (target : TenantTabTarget) : option string :=
  match target with
  | TenantTarget t | DatabaseTarget _ t | TableTarget _ _ t => t
  end.

End TenantTab.

(** ** src/providers/berdlProvider.tsx *)

Module BerdlProvider.

Import TenantTab.

Definition PERSONAL_NODE_ID : string := "__user_databases__".

Inductive BerdlNodeType : Type := userData | tenant | database | table.

Inductive Icon : Type := faUserCircle.

(** [node.data] of the nodes this provider builds. *)
Record NodeData : Type := {
  data_tenant : option string;
  data_database : option string
}.

(** [BaseTreeNodeType], as far as the provider fills it. *)
Record BaseTreeNodeType : Type := {
  id : string;
  name : string;
  type : BerdlNodeType;
  icon : option Icon;
  data : option NodeData
}.

(** The decoded answer of the groups endpoint; [groups] is [None] when the
    field is null or missing. *)
Record IGroupsResponse : Type := {
  username : string;
  groups : option (list string);
  group_count : N
}.

(** [s.endsWith(suffix)] *)
Definition endsWith (s suffix : string) : bool :=
  let n := String.length s in
  let m := String.length suffix in
  Nat.leb m n && String.eqb (substring (n - m)%nat m s) suffix.

(** [s.slice(0, -k)] *)
Definition slice_off (k : nat) (s : string) : string :=
  substring 0 (String.length s - k)%nat s.

(** [g.endsWith('ro') ? g.slice(0, -2) : g] *)
Definition strip_ro (g : string) : string :=
  if endsWith g "ro" then slice_off 2 g else g.

(** [[...new Set(l)]]: each text once, in the order of first appearance. *)
Definition Set_add (acc : list string) (x : string) : list string :=
  if existsb (String.eqb x) acc then acc else acc ++ [x].

Definition Set_from (l : list string) : list string :=
  fold_left Set_add l [].

Definition personal_node (g : IGroupsResponse) : BaseTreeNodeType :=
  {| id := PERSONAL_NODE_ID;
     name := username g;
     type := userData;
     icon := Some faUserCircle;
     data := None |}.

Definition tenant_node (groupName : string) : BaseTreeNodeType :=
  {| id := "tenant://" ++ groupName;
     name := groupName;
     type := tenant;
     icon := None;
     data := None |}.

(** [fetched] is the promise [fetchGroups()] returned. *)
Definition fetchRootNodes (fetched : promise IGroupsResponse)
  : promise (list BaseTreeNodeType) :=
  await fetched (fun groupsResponse =>
  Fulfilled
    (personal_node groupsResponse
     :: match groups groupsResponse with
        | Some gs => map tenant_node (Set_from (map strip_ro gs))
        | None => []
        end)).

Definition database_child (node : BaseTreeNodeType) (databaseName : string)
  : BaseTreeNodeType :=
  {| id := id node ++ "/" ++ databaseName;
     name := databaseName;
     type := database;
     icon := None;
     data := Some {| data_tenant := Some (name node); data_database := None |} |}.

Definition table_child (node : BaseTreeNodeType) (tableName : string)
  : BaseTreeNodeType :=
  {| id := id node ++ "/" ++ tableName;
     name := tableName;
     type := table;
     icon := None;
     data := Some {| data_tenant :=
                       match data node with
                       | Some d => data_tenant d
                       | None => None
                       end;
                     data_database := Some (name node) |} |}.

(** [fetchChildNodes], by the type of the node; [fetchDatabases] and
    [fetchTables] are the client functions with their decoded answers, a
    null table list being [None]. *)
Definition fetchChildNodes
  (fetchDatabases : option string -> promise (list string))
  (fetchTables : string -> promise (option (list string)))
  (node : BaseTreeNodeType) : promise (list BaseTreeNodeType) :=
  match type node with
  | userData =>
      await (fetchDatabases None) (fun databases =>
      Fulfilled (map (database_child node) databases))
  | tenant =>
      await (fetchDatabases (Some (name node))) (fun databases =>
      Fulfilled (map (database_child node) databases))
  | database =>
      await (fetchTables (name node)) (fun tables =>
      match tables with
      | None => Fulfilled []
      | Some ts => Fulfilled (map (table_child node) ts)
      end)
  | table => Fulfilled []
  end.

(** The target the [Open in tab] menu item of a node hands to the
    command. *)
Definition open_in_tab (node : BaseTreeNodeType) : TenantTabTarget :=
  let node_data (field : NodeData -> option string) :=
    match data node with
    | Some d => field d
    | None => None
    end in
  match type node with
  | userData => TenantTarget None
  | tenant => TenantTarget (Some (name node))
  | database => DatabaseTarget (name node) (node_data data_tenant)
  | table => TableTarget (name node) (node_data data_database)
               (node_data data_tenant)
  end.

End BerdlProvider.

(** ** src/TenantTabContent.tsx *)

Module TenantTabContent.

Import TenantTab.

Definition getInitialDatabase (target : TenantTabTarget) : option string :=
  match target with
  | DatabaseTarget databaseName _ => Some databaseName
  | TableTarget _ databaseName _ => databaseName
  | TenantTarget _ => None
  end.

Definition getInitialTable (target : TenantTabTarget) : option string :=
  match target with
  | TableTarget tableName _ _ => Some tableName
  | _ => None
  end.

(** [target.tenant || 'User Data'] *)
Definition tenantLabel (target : TenantTabTarget) : string :=
  match target_tenant target with
  | Some t => if String.eqb t "" then "User Data" else t
  | None => "User Data"
  end.

End TenantTabContent.

(** A stand-in for [JSON.parse] on the finitely many texts an example
    decodes: the table lists each text with the value it denotes. *)
Definition parse_table (table : list (string * value)) (text : string)
  : option value :=
  lookup_property text table.

(** ** Notions used to state the properties *)

Import KernelCommunication NamespaceFilter.

(** A text wrapped in one layer of single quotes, the way the engine echoes
    a string result. *)
Definition quoted (t : string) : string := "'" ++ t ++ "'".

Definition starts_with_quote (s : string) : bool :=
  match s with
  | String c _ => Ascii.eqb c "'"%char
  | EmptyString => false
  end.

Fixpoint ends_with_quote (s : string) : bool :=
  match s with
  | EmptyString => false
  | String c EmptyString => Ascii.eqb c "'"%char
  | String _ rest => ends_with_quote rest
  end.

(** An output envelope whose [data] bundle carries [payload] under
    [text/plain], next to any other representations and fields. *)
Definition text_envelope (payload : value) (mimes rest : list (string * value))
  : value :=
  VObj (("data", VObj (("text/plain", payload) :: mimes)) :: rest).

(** [response?.databases] *)
Definition databases_field (response : value) : value :=
  match response with
  | VObj ps => default VUndefined (lookup_property "databases" ps)
  | _ => VUndefined
  end.

(** The names of [dbs] that start with the selected prefix, none when there
    is no prefix or an empty one. *)
Definition expected_databases (selected : option string) (dbs : list string)
  : list string :=
  match selected with
  | Some p => if String.eqb p "" then [] else List.filter (String.prefix p) dbs
  | None => []
  end.

(** What one event of an execution request resolves the request with, were
    it the first to do so. *)
Definition terminal_outcome (ev : ExecEvent) : option QueryResult :=
  match ev with
  | IOPub (Kernel.execute_result content)
  | IOPub (Kernel.display_data content)
  | IOPub (Kernel.update_display_data content) =>
      Some (mkQueryResult (Some content) None)
  | IOPub (Kernel.error en ev tb) =>
      Some (mkQueryResult None
              (Some (new_KernelError execution_error
                       (Some {| details_ename := Some en;
                                details_evalue := Some ev;
                                details_traceback := tb |}))))
  | ExecTimerFires =>
      Some (mkQueryResult None (Some (new_KernelError timeout None)))
  | IOPub (Kernel.stream _ _) | IOPub (Kernel.other _) => None
  end.

Fixpoint first_terminal (evs : list ExecEvent) : option QueryResult :=
  match evs with
  | [] => None
  | ev :: rest =>
      match terminal_outcome ev with
      | Some r => Some r
      | None => first_terminal rest
      end
  end.

Inductive OutcomeKind : Type := IsResult | IsExecutionError | IsTimeout.

Definition outcome_kind (r : QueryResult) : option OutcomeKind :=
  match data r, error r with
  | Some _, None => Some IsResult
  | None, Some e =>
      match type e with
      | execution_error => Some IsExecutionError
      | timeout => Some IsTimeout
      | _ => None
      end
  | _, _ => None
  end.

Definition followers (p : PromiseId) (cs : list Caller)
  : list (Caller * Role * PromiseId) :=
  map (fun c => (c, Follower, p)) cs.

Definition deliveries (r : result SessionId) (cs : list Caller)
  : list (Caller * result SessionId) :=
  map (fun c => (c, r)) cs.

Definition reachable (s : State) : Prop := exists evs, s = run evs initial.

(** The shapes the shared variables and the suspended calls take together. *)
Definition consistent (s : State) : Prop :=
  match sharedSessionContext s, sharedSessionPromise s with
  | Some sc, Some p => sc = p /\ awaiting s = [] /\ deathMonitors s = 1
  | Some _, None => False
  | None, Some p =>
      deathMonitors s = 0 /\
      exists c cs, awaiting s = (c, Creator, p) :: followers p cs
  | None, None => deathMonitors s = 0 /\ awaiting s = []
  end.

(** *** Inputs of the examples *)

Definition properties_of (v : value) : list (string * value) :=
  match v with
  | VObj ps => ps
  | _ => []
  end.

Definition prefix_properties_of (v : value) : list (string * value) :=
  properties_of (default VUndefined (lookup_property "prefix" (properties_of v))).

Definition ann_only_response : value :=
  VObj [("databases", VArr (map VStr ["acme_orders"; "other_x"]));
        ("prefix", VObj [("username", VStr "ann");
                         ("user_namespace_prefix", VStr "u_ann__")])].

Definition session_with (st : Kernel.Status) : option Kernel.SessionContext :=
  Some {| Kernel.session :=
            Some {| Kernel.kernel := Some {| Kernel.status := st |} |} |}.

Definition services_ok : Services :=
  {| kernelspecs_ready := Ok tt;
     kernelspecs_specs := Some ["ir"; "python3"];
     initialize := Ok true;
     changeKernel_race := KernelStarted |}.

Definition services_slow : Services :=
  {| kernelspecs_ready := Ok tt;
     kernelspecs_specs := Some ["ir"; "python3"];
     initialize := Ok true;
     changeKernel_race := StartTimerFirst |}.

Definition acme_response : IDatabasesResponse :=
  {| databases := ["acme_orders"; "acme_users"; "other_x"];
     prefix := {| username := "ann";
                  user_namespace_prefix := "u_ann__";
                  tenant := Some "acme";
                  tenant_namespace_prefix := Some "acme_" |} |}.

Definition blank_prefix_response : IDatabasesResponse :=
  {| databases := ["acme_orders"];
     prefix := {| username := "ann";
                  user_namespace_prefix := "";
                  tenant := None;
                  tenant_namespace_prefix := None |} |}.

(** The object a payload with a [databases] list and no [prefix] decodes
    to, and the JSON text of that payload. *)
Definition no_prefix_value : value := VObj [("databases", VArr [VStr "a"])].

Definition no_prefix_text : string :=
  "{" ++ KernelQueries.dquote ++ "databases" ++ KernelQueries.dquote ++ ":["
  ++ KernelQueries.dquote ++ "a" ++ KernelQueries.dquote ++ "]}".

Definition one_result (text : string) : World :=
  {| status_events := [];
     exec_events :=
       [IOPub (Kernel.execute_result (text_envelope (VStr text) [] []))] |}.

Definition name_error : list ExecEvent :=
  [IOPub (Kernel.error "NameError" "name 'x' is not defined" None)].

Definition numbers_table : list (string * value) :=
  [("[1,2,3]", VArr [VNum "1"; VNum "2"; VNum "3"])].

(** *** Notions for the further properties *)

(** The callers of the calls in a trace, in order of arrival. *)
Fixpoint acquirers (evs : list Event) : list Caller :=
  match evs with
  | [] => []
  | Acquire c :: rest => c :: acquirers rest
  | _ :: rest => acquirers rest
  end.

(** The settlements in a trace whose initialization body fails. *)
Fixpoint failing_settlements (evs : list Event) : nat :=
  match evs with
  | [] => 0
  | InitializationSettles m :: rest =>
      match fst (initialization m) with
      | Throw _ => S (failing_settlements rest)
      | Ok _ => failing_settlements rest
      end
  | _ :: rest => failing_settlements rest
  end.

(** The status events in a trace that find the kernel dead. *)
Fixpoint dead_signals (evs : list Event) : nat :=
  match evs with
  | [] => 0
  | StatusChanged (Some Kernel.dead) _ :: rest => S (dead_signals rest)
  | _ :: rest => dead_signals rest
  end.


(** A session exists or an initialization is in flight. *)
Definition in_progress (s : State) : bool :=
  match sharedSessionContext s, sharedSessionPromise s with
  | None, None => false
  | _, _ => true
  end.

Definition in_flight (s : State) : bool :=
  match sharedSessionContext s, sharedSessionPromise s with
  | None, Some _ => true
  | _, _ => false
  end.

Definition reconnection_failed : exn :=
  ExnError "Kernel died and reconnection failed".

(** What one event settles a pending wait with. *)
Definition decisive (ev : WaitEvent) : option (promise unit) :=
  match ev with
  | StatusBecomes st =>
      if includes readyStatuses st then Some (Fulfilled tt)
      else if includes badStatuses st then Some (Rejected (bad_status_error st))
      else None
  | WaitTimerFires =>
      Some (Rejected (ExnKernelError (new_KernelError timeout None)))
  end.

Fixpoint first_decisive (evs : list WaitEvent) : promise unit :=
  match evs with
  | [] => Pending
  | ev :: rest =>
      match decisive ev with
      | Some outcome => outcome
      | None => first_decisive rest
      end
  end.

(** A status event that ends the wait, ready or bad. *)
Definition ends_wait (ev : WaitEvent) : bool :=
  match ev with
  | StatusBecomes st => includes readyStatuses st || includes badStatuses st
  | WaitTimerFires => false
  end.

(** A status that is neither ready nor bad. *)
Definition pending_status (st : Kernel.Status) : bool :=
  negb (includes readyStatuses st) && negb (includes badStatuses st).

(** The errors the readiness wait rejects with. *)
Definition wait_error (e : exn) : Prop :=
  exists t, (t = dead \/ t = not_ready \/ t = timeout) /\
            e = ExnKernelError (new_KernelError t None).


(** A result carries a payload or an error, never both and never neither. *)
Definition one_sided (q : QueryResult) : bool :=
  match data q, error q with
  | Some _, None | None, Some _ => true
  | _, _ => false
  end.

Definition strip_leading_quote (s : string) : string :=
  match s with
  | String c rest => if Ascii.eqb c "'"%char then rest else s
  | EmptyString => s
  end.

Fixpoint strip_trailing_quote (s : string) : string :=
  match s with
  | EmptyString => EmptyString
  | String c EmptyString => if Ascii.eqb c "'"%char then EmptyString else s
  | String c rest => String c (strip_trailing_quote rest)
  end.

Definition is_text (v : value) : bool :=
  match v with
  | VStr _ => true
  | _ => false
  end.

(** The texts among the elements of an array, in order. *)
Definition string_elements (v : value) : list string :=
  match v with
  | VArr l => omap (fun x => match x with VStr s => Some s | _ => None end) l
  | _ => []
  end.

(** [data.error] as [serverGet] reads it, [undefined] when the read throws. *)
Definition error_field (data : value) : value :=
  match get data "error" with
  | Ok e => e
  | Throw _ => VUndefined
  end.

(** *** Inputs of the further examples *)

Definition plain_join (a b c : string) : string := a ++ b ++ "/" ++ c.

(** A server that answers the listed URLs and is unreachable for the rest. *)
Fixpoint answers (table : list (string * Api.Response)) (url : string)
  : promise Api.Response :=
  match table with
  | [] => Rejected (ExnError "Failed to fetch")
  | (u, r) :: rest => if String.eqb u url then Fulfilled r else answers rest url
  end.

Definition page (table : list (string * Api.Response)) : Api.Environment :=
  {| Api.baseUrl := "/";
     Api.URLExt_join := plain_join;
     Api.urlencode := fun s => s;
     Api.makeRequest := answers table |}.

Definition forbidden : Api.Response :=
  {| Api.ok := false;
     Api.status := 403;
     Api.json := Fulfilled (VObj [("error", VStr "Not a member of acme")]) |}.

Definition acme_page : Api.Environment :=
  page [("/api/tenant-data-browser/databases?tenant=acme", forbidden);
        ("/api/tenant-data-browser/databases",
         {| Api.ok := true;
            Api.status := 200;
            Api.json := Fulfilled (to_value acme_response) |})].

Definition established : State :=
  run [Acquire 1; InitializationSettles services_ok] initial.

Definition after_establishment : list Event :=
  [StatusChanged (Some Kernel.dead) (Throw (ExnError "no kernel"));
   Acquire 2; InitializationSettles services_slow; Acquire 3].

Definition catalog (tenant : option string) : promise (list string) :=
  match tenant with
  | Some _ => Fulfilled ["acme_orders"; "acme_users"]
  | None => Fulfilled ["u_ann__notes"]
  end.

Definition tables_of (database : string) : promise (option (list string)) :=
  if String.eqb database "acme_orders"
  then Fulfilled (Some ["items"; "orders"])
  else Fulfilled None.




Definition failed_reconnection : list Event :=
  [Acquire 1; InitializationSettles services_ok;
   StatusChanged (Some Kernel.dead) (Throw (ExnError "no kernel"))].

Definition name_error_details : ErrorDetails :=
  {| details_ename := Some "NameError";
     details_evalue := Some "name 'x' is not defined";
     details_traceback := None |}.

Definition mixed_response : value :=
  VObj [("databases", VArr [VStr "acme_orders"; VNum "7"]);
        ("prefix", VObj [("user_namespace_prefix", VStr "acme_")])].

Open Scope list_scope.

(** ** The output envelope parser *)

Lemma append_cons c (s t : string) : (String c s ++ t)%string = String c (s ++ t)%string.
Proof. reflexivity. Qed.

Lemma append_quote_nonempty (t : string) :
  exists c r, (t ++ "'")%string = String c r.
Proof.
  destruct t as [|c t];
    [exists "'"%char, EmptyString|exists c, (t ++ "'")%string]; reflexivity.
Qed.

(** Away from the start of the text only a final quote goes. *)
Lemma replace_from_snoc_quote t : replace_from false (t ++ "'")%string = t.
Proof.
  induction t as [|c t IH]; [reflexivity|].
  rewrite append_cons. cbn [replace_from]. rewrite IH.
  destruct (append_quote_nonempty t) as (c' & r & ->).
  rewrite andb_false_r. reflexivity.
Qed.

Lemma replace_quoted t : replace_edge_quotes (quoted t) = t.
Proof.
  unfold replace_edge_quotes, quoted.
  change ("'" ++ t ++ "'")%string with (String "'"%char (t ++ "'")%string).
  cbn [replace_from]. apply replace_from_snoc_quote.
Qed.

Lemma replace_from_no_trailing t :
  ends_with_quote t = false -> replace_from false t = t.
Proof.
  induction t as [|c t IH]; [reflexivity|].
  intros H. cbn [replace_from]. destruct t as [|c' t'].
  - cbn in H. rewrite H. reflexivity.
  - rewrite andb_false_r. f_equal. apply IH. exact H.
Qed.

Lemma replace_unquoted t :
  starts_with_quote t = false -> ends_with_quote t = false ->
  replace_edge_quotes t = t.
Proof.
  destruct t as [|c t]; [reflexivity|]. intros Hs He.
  unfold replace_edge_quotes. cbn [replace_from]. cbn in Hs. rewrite Hs.
  cbn [andb]. f_equal. destruct t as [|c' t']; [reflexivity|].
  apply replace_from_no_trailing. exact He.
Qed.

(** On an envelope with a textual payload the parser returns what
    [JSON.parse] makes of the stripped text, or no value. *)
Lemma parse_text_envelope JSON_parse text mimes rest :
  parseKernelOutputJSON JSON_parse (text_envelope (VStr text) mimes rest)
  = Ok (default VUndefined (JSON_parse (replace_edge_quotes text))).
Proof.
  unfold parseKernelOutputJSON, text_envelope, call_JSON_parse. cbn.
  destruct (JSON_parse _); reflexivity.
Qed.

Lemma parse_returns JSON_parse output :
  exists v, parseKernelOutputJSON JSON_parse output = Ok v.
Proof.
  unfold parseKernelOutputJSON.
  destruct output as [| | | | | |ps]; cbn; eauto.
  destruct (default VUndefined (lookup_property "data" ps))
    as [| |[]| | | |mimes]; cbn; eauto.
  - destruct (negb _ && negb _); cbn; eauto.
  - destruct (negb _); cbn; eauto.
  - case_bool_decide; eauto.
    destruct (default VUndefined (lookup_property "text/plain" mimes));
      cbn; eauto.
    unfold call_JSON_parse. destruct (JSON_parse _); cbn; eauto.
Qed.

Lemma parse_without_text JSON_parse mimes rest :
  lookup_property "text/plain" mimes = None ->
  parseKernelOutputJSON JSON_parse (VObj (("data", VObj mimes) :: rest))
  = Ok VUndefined.
Proof.
  intros H. unfold parseKernelOutputJSON. cbn. rewrite H.
  rewrite bool_decide_eq_false_2; [reflexivity|].
  intros [v Hv]. discriminate.
Qed.

Lemma parse_without_data JSON_parse props :
  lookup_property "data" props = None ->
  parseKernelOutputJSON JSON_parse (VObj props) = Ok VUndefined.
Proof. intros H. unfold parseKernelOutputJSON. cbn. rewrite H. reflexivity. Qed.

Lemma parse_non_text_payload JSON_parse payload mimes rest :
  (forall s, payload <> VStr s) ->
  parseKernelOutputJSON JSON_parse (text_envelope payload mimes rest)
  = Ok VUndefined.
Proof.
  intros H. unfold parseKernelOutputJSON, text_envelope. cbn.
  destruct payload; cbn; try reflexivity. destruct (H s eq_refl).
Qed.

(** C7. The parser removes one leading and one trailing quote from the
    textual payload, whatever lies between them, so a second layer of
    quotes stays; a text that neither starts nor ends with a quote (every
    JSON text is one) is decoded to the same value whether it arrives
    bare or wrapped in one layer of quotes. *)
Theorem parse_strips_one_quote_layer
  (JSON_parse : string -> option value) (t : string)
  (mimes rest : list (string * value)) :
  starts_with_quote t = false -> ends_with_quote t = false ->
  replace_edge_quotes (quoted t) = t /\
  replace_edge_quotes t = t /\
  replace_edge_quotes (quoted (quoted t)) = quoted t /\
  parseKernelOutputJSON JSON_parse (text_envelope (VStr (quoted t)) mimes rest)
  = parseKernelOutputJSON JSON_parse (text_envelope (VStr t) mimes rest) /\
  parseKernelOutputJSON JSON_parse (text_envelope (VStr t) mimes rest)
  = Ok (default VUndefined (JSON_parse t)).
Proof.
  intros Hs He. rewrite !parse_text_envelope, !replace_quoted.
  rewrite (replace_unquoted t Hs He). auto.
Qed.

Lemma parse_strips_one_quote_layer_witness :
  parseKernelOutputJSON (parse_table numbers_table)
    (text_envelope (VStr "'[1,2,3]'") [] [])
  = parseKernelOutputJSON (parse_table numbers_table)
      (text_envelope (VStr "[1,2,3]") [] []) /\
  parseKernelOutputJSON (parse_table numbers_table)
    (text_envelope (VStr "[1,2,3]") [] [])
  = Ok (VArr [VNum "1"; VNum "2"; VNum "3"]).
Proof.
  exact (proj2 (proj2 (proj2
    (parse_strips_one_quote_layer (parse_table numbers_table) "[1,2,3]" [] []
       eq_refl eq_refl)))).
Defined.

(** C8. [parseKernelOutputJSON] returns on every argument and never throws:
    a missing envelope, an envelope without a [data] bundle or without a
    [text/plain] entry in it, a payload that is not a text and a text that
    [JSON.parse] rejects all give [undefined]. *)
Theorem parseKernelOutputJSON_never_throws
  (JSON_parse : string -> option value) :
  (forall output, exists v, parseKernelOutputJSON JSON_parse output = Ok v) /\
  parseKernelOutputJSON JSON_parse VUndefined = Ok VUndefined /\
  (forall props, lookup_property "data" props = None ->
     parseKernelOutputJSON JSON_parse (VObj props) = Ok VUndefined) /\
  (forall mimes rest, lookup_property "text/plain" mimes = None ->
     parseKernelOutputJSON JSON_parse (VObj (("data", VObj mimes) :: rest))
     = Ok VUndefined) /\
  (forall payload mimes rest, (forall s, payload <> VStr s) ->
     parseKernelOutputJSON JSON_parse (text_envelope payload mimes rest)
     = Ok VUndefined) /\
  (forall text mimes rest, JSON_parse (replace_edge_quotes text) = None ->
     parseKernelOutputJSON JSON_parse (text_envelope (VStr text) mimes rest)
     = Ok VUndefined).
Proof.
  split; [apply parse_returns|].
  split; [reflexivity|].
  split; [apply parse_without_data|].
  split; [apply parse_without_text|].
  split; [apply parse_non_text_payload|].
  intros text mimes rest H. rewrite parse_text_envelope, H. reflexivity.
Qed.

Lemma parseKernelOutputJSON_never_throws_witness :
  parseKernelOutputJSON (parse_table numbers_table)
    (VObj [("data", VObj [("image/png", VStr "iVBOR")])]) = Ok VUndefined /\
  parseKernelOutputJSON (parse_table numbers_table)
    (text_envelope (VArr [VStr "[1,"; VStr "2,3]"]) [] []) = Ok VUndefined /\
  parseKernelOutputJSON (parse_table numbers_table)
    (text_envelope (VStr "'[1,2") [] []) = Ok VUndefined.
Proof.
  pose proof (parseKernelOutputJSON_never_throws (parse_table numbers_table))
    as (_ & _ & _ & Hmime & Hpayload & Htext).
  split; [apply Hmime; reflexivity|].
  split; [apply Hpayload; discriminate|].
  apply Htext; reflexivity.
Defined.

(** ** The prefix filter *)

Lemma filter_startsWith_strings dbs p :
  filter_startsWith (map VStr dbs) (VStr p)
  = Ok (List.filter (String.prefix p) dbs).
Proof.
  induction dbs as [|db dbs IH]; [reflexivity|].
  cbn [map filter_startsWith startsWith ToString bind List.filter].
  rewrite IH. cbn [bind]. reflexivity.
Qed.

Lemma filter_is_sublist {A} (f : A -> bool) (l : list A) :
  sublist (List.filter f l) l.
Proof.
  induction l as [|x l IH]; cbn; [constructor|].
  destruct (f x); by constructor.
Qed.

Lemma expected_databases_sublist selected dbs :
  sublist (expected_databases selected dbs) dbs.
Proof.
  destruct selected as [p|]; cbn; [|apply sublist_nil_l].
  destruct (String.eqb p ""); [apply sublist_nil_l|apply filter_is_sublist].
Qed.

Lemma get_optional_databases response :
  get_optional response "databases" = Ok (databases_field response).
Proof. destruct response; reflexivity. Qed.

Lemma filter_without_databases tenant response :
  truthy (databases_field response) = false ->
  filter_by_namespace_prefix tenant response = Ok [].
Proof.
  intros H. unfold filter_by_namespace_prefix.
  rewrite get_optional_databases. cbn [bind]. rewrite H. reflexivity.
Qed.

Lemma filter_selected tenant props pprops dbs selected :
  lookup_property "databases" props = Some (VArr (map VStr dbs)) ->
  lookup_property "prefix" props = Some (VObj pprops) ->
  as_prefix (lookup_property (selected_key tenant) pprops) = Some selected ->
  filter_by_namespace_prefix tenant (VObj props)
  = Ok (expected_databases selected dbs).
Proof.
  intros Hd Hp Hs. unfold filter_by_namespace_prefix.
  cbn [get_optional get bind]. rewrite Hd, Hp. cbn.
  destruct (lookup_property (selected_key tenant) pprops) as [v|] eqn:E;
    [|injection Hs as <-; reflexivity].
  destruct v; try discriminate; injection Hs as <-; cbn; try reflexivity.
  destruct (String.eqb s ""); cbn; [reflexivity|].
  apply filter_startsWith_strings.
Qed.

Lemma filter_empty_prefix tenant props pprops :
  lookup_property "prefix" props = Some (VObj pprops) ->
  lookup_property (selected_key tenant) pprops = Some (VStr "") ->
  filter_by_namespace_prefix tenant (VObj props) = Ok [].
Proof.
  intros Hp Hs. unfold filter_by_namespace_prefix.
  cbn [get_optional get bind]. rewrite Hp. cbn. rewrite Hs.
  cbn. destruct (negb _); reflexivity.
Qed.

(** On a payload of the declared type the filter answers with the names
    that start with the selected prefix, unless that prefix is empty or
    null. *)
Lemma filter_typed tenant r :
  filter_by_namespace_prefix tenant (to_value r)
  = Ok (expected_databases (selected_prefix tenant r) (databases r)).
Proof.
  unfold to_value. eapply filter_selected; [reflexivity|reflexivity|].
  destruct tenant; cbn; [|reflexivity].
  destruct (tenant_namespace_prefix (prefix r)); reflexivity.
Qed.

(** The kernel-backed version, once [queryKernel] has answered without an
    error and the parser has returned [response]. *)
Lemma after_query_parsed JSON_parse tenant d response :
  parseKernelOutputJSON JSON_parse (default VUndefined d) = Ok response ->
  KernelQueries.after_query JSON_parse tenant (mkQueryResult d None)
  = filter_by_namespace_prefix tenant response.
Proof.
  intros H. unfold KernelQueries.after_query, KernelQueries.data_value.
  cbn [error data]. rewrite H. reflexivity.
Qed.

Lemma fetch_after_query JSON_parse sessionContext tenant w q :
  queryKernel (KernelQueries.query_code tenant) sessionContext w = Fulfilled q ->
  KernelQueries.fetchFilteredDatabases JSON_parse sessionContext tenant w
  = settled (KernelQueries.after_query JSON_parse tenant q).
Proof.
  intros H. unfold KernelQueries.fetchFilteredDatabases. rewrite H. reflexivity.
Qed.

(** C3, as the code has it. [fetchFilteredDatabases] rethrows the error
    [queryKernel] reports, the same object; and it returns the empty list
    whenever the parsed result is absent or holds no truthy [databases]
    property, in the kernel-backed and in the server-backed version. *)
Theorem fetch_rethrows_and_defaults_to_empty
  (JSON_parse : string -> option value)
  (sessionContext : option Kernel.SessionContext) (tenant : option string)
  (w : World) :
  (forall d e,
     queryKernel (KernelQueries.query_code tenant) sessionContext w
     = Fulfilled (mkQueryResult d (Some e)) ->
     KernelQueries.fetchFilteredDatabases JSON_parse sessionContext tenant w
     = Rejected (ExnKernelError e)) /\
  (forall d response,
     queryKernel (KernelQueries.query_code tenant) sessionContext w
     = Fulfilled (mkQueryResult d None) ->
     parseKernelOutputJSON JSON_parse (default VUndefined d) = Ok response ->
     truthy (databases_field response) = false ->
     KernelQueries.fetchFilteredDatabases JSON_parse sessionContext tenant w
     = Fulfilled []) /\
  (forall response,
     truthy (databases_field response) = false ->
     ApiQueries.fetchFilteredDatabases (Fulfilled response) tenant
     = Fulfilled []).
Proof.
  split; [|split].
  - intros d e H. unfold KernelQueries.fetchFilteredDatabases.
    rewrite H. reflexivity.
  - intros d response H Hp Hd.
    rewrite (fetch_after_query _ _ _ _ _ H), (after_query_parsed _ _ _ _ Hp),
            (filter_without_databases _ _ Hd).
    reflexivity.
  - intros response Hd. unfold ApiQueries.fetchFilteredDatabases. cbn [await].
    rewrite (filter_without_databases _ _ Hd). reflexivity.
Qed.

Lemma fetch_rethrows_and_defaults_to_empty_witness :
  KernelQueries.fetchFilteredDatabases (parse_table numbers_table)
    (session_with Kernel.idle) None
    {| status_events := []; exec_events := name_error |}
  = Rejected
      (ExnKernelError
         (new_KernelError execution_error
            (Some {| details_ename := Some "NameError";
                     details_evalue := Some "name 'x' is not defined";
                     details_traceback := None |}))) /\
  KernelQueries.fetchFilteredDatabases (parse_table numbers_table)
    (session_with Kernel.idle) None (one_result "'[1,2,3]'")
  = Fulfilled [] /\
  ApiQueries.fetchFilteredDatabases (Fulfilled VNull) None = Fulfilled [].
Proof.
  split; [|split].
  - exact (proj1 (fetch_rethrows_and_defaults_to_empty
                    (parse_table numbers_table) (session_with Kernel.idle) None
                    {| status_events := []; exec_events := name_error |})
             _ _ eq_refl).
  - exact (proj1 (proj2 (fetch_rethrows_and_defaults_to_empty
                    (parse_table numbers_table) (session_with Kernel.idle) None
                    (one_result "'[1,2,3]'")))
             _ (VArr [VNum "1"; VNum "2"; VNum "3"]) eq_refl eq_refl eq_refl).
  - exact (proj2 (proj2 (fetch_rethrows_and_defaults_to_empty
                    (parse_table numbers_table) None None (one_result "")))
             VNull eq_refl).
Defined.

(** C3, as the claim has it, fails: a payload with a [databases] list and
    no [prefix] record is not of the expected shape, and both versions
    throw a TypeError on it, reading a property of [undefined]. *)
Lemma fetch_throws_without_prefix_record :
  KernelQueries.fetchFilteredDatabases
    (parse_table [(no_prefix_text, no_prefix_value)])
    (session_with Kernel.idle) None (one_result (quoted no_prefix_text))
  = Rejected ExnTypeError /\
  ApiQueries.fetchFilteredDatabases (Fulfilled no_prefix_value) None
  = Rejected ExnTypeError.
Proof. split; vm_compute; reflexivity. Qed.

(** C6, as the code has it. On a parsed result whose [databases] is a list
    of names and whose [prefix] is a record, the function reads the user's
    own prefix when no tenant is given and the tenant's prefix otherwise,
    and returns the names that start with it, in their original order,
    when that prefix is a non-empty text; it returns the empty list when
    the prefix is null, absent or the empty text. *)
Theorem fetch_filters_by_selected_prefix
  (JSON_parse : string -> option value) (tenant : option string)
  (props pprops : list (string * value)) (dbs : list string)
  (selected : option string) :
  lookup_property "databases" props = Some (VArr (map VStr dbs)) ->
  lookup_property "prefix" props = Some (VObj pprops) ->
  as_prefix (lookup_property (selected_key tenant) pprops) = Some selected ->
  selected_key None = "user_namespace_prefix" /\
  (forall t, selected_key (Some t) = "tenant_namespace_prefix") /\
  ApiQueries.fetchFilteredDatabases (Fulfilled (VObj props)) tenant
  = Fulfilled (expected_databases selected dbs) /\
  (forall sessionContext w d,
     queryKernel (KernelQueries.query_code tenant) sessionContext w
     = Fulfilled (mkQueryResult d None) ->
     parseKernelOutputJSON JSON_parse (default VUndefined d) = Ok (VObj props) ->
     KernelQueries.fetchFilteredDatabases JSON_parse sessionContext tenant w
     = Fulfilled (expected_databases selected dbs)) /\
  expected_databases selected dbs
  = match selected with
    | Some p =>
        if String.eqb p "" then [] else List.filter (String.prefix p) dbs
    | None => []
    end /\
  sublist (expected_databases selected dbs) dbs.
Proof.
  intros Hd Hp Hs. pose proof (filter_selected _ _ _ _ _ Hd Hp Hs) as H.
  split; [reflexivity|]. split; [reflexivity|].
  split; [unfold ApiQueries.fetchFilteredDatabases; cbn [await]; rewrite H;
          reflexivity|].
  split; [intros sc w d Hq Hparse;
          rewrite (fetch_after_query _ _ _ _ _ Hq),
                  (after_query_parsed _ _ _ _ Hparse), H; reflexivity|].
  split; [reflexivity|apply expected_databases_sublist].
Qed.

Lemma fetch_filters_by_selected_prefix_witness :
  ApiQueries.fetchFilteredDatabases (Fulfilled (to_value acme_response))
    (Some "acme")
  = Fulfilled ["acme_orders"; "acme_users"] /\
  ApiQueries.fetchFilteredDatabases (Fulfilled ann_only_response) (Some "acme")
  = Fulfilled [].
Proof.
  split.
  - exact (proj1 (proj2 (proj2
      (fetch_filters_by_selected_prefix (parse_table []) (Some "acme")
         (properties_of (to_value acme_response))
         (prefix_properties_of (to_value acme_response))
         ["acme_orders"; "acme_users"; "other_x"] (Some "acme_")
         eq_refl eq_refl eq_refl)))).
  - exact (proj1 (proj2 (proj2
      (fetch_filters_by_selected_prefix (parse_table []) (Some "acme")
         (properties_of ann_only_response)
         (prefix_properties_of ann_only_response)
         ["acme_orders"; "other_x"] None eq_refl eq_refl eq_refl)))).
Defined.

(** C6, as the claim has it, fails: with the empty text as the user's
    prefix every name starts with the prefix, and the function returns no
    name at all. *)
Lemma fetch_drops_everything_on_blank_prefix :
  ApiQueries.fetchFilteredDatabases
    (Fulfilled (to_value blank_prefix_response)) None
  = Fulfilled [] /\
  List.filter (String.prefix "") (databases blank_prefix_response)
  = ["acme_orders"].
Proof. split; reflexivity. Qed.

(** C10. Whenever the selected prefix of the parsed response is the empty
    text, [fetchFilteredDatabases] returns the empty list, whatever the
    response lists as databases: the empty text is handled like a missing
    prefix, not as a prefix of every name. *)
Theorem fetch_treats_empty_prefix_as_none
  (JSON_parse : string -> option value) (tenant : option string)
  (props pprops : list (string * value)) :
  lookup_property "prefix" props = Some (VObj pprops) ->
  lookup_property (selected_key tenant) pprops = Some (VStr "") ->
  ApiQueries.fetchFilteredDatabases (Fulfilled (VObj props)) tenant
  = Fulfilled [] /\
  (forall sessionContext w d,
     queryKernel (KernelQueries.query_code tenant) sessionContext w
     = Fulfilled (mkQueryResult d None) ->
     parseKernelOutputJSON JSON_parse (default VUndefined d) = Ok (VObj props) ->
     KernelQueries.fetchFilteredDatabases JSON_parse sessionContext tenant w
     = Fulfilled []) /\
  (forall db, String.prefix "" db = true).
Proof.
  intros Hp Hs. pose proof (filter_empty_prefix _ _ _ Hp Hs) as H.
  split; [unfold ApiQueries.fetchFilteredDatabases; cbn [await]; rewrite H;
          reflexivity|].
  split; [intros sc w d Hq Hparse;
          rewrite (fetch_after_query _ _ _ _ _ Hq),
                  (after_query_parsed _ _ _ _ Hparse), H; reflexivity|].
  intros db. destruct db; reflexivity.
Qed.

Lemma fetch_treats_empty_prefix_as_none_witness :
  ApiQueries.fetchFilteredDatabases
    (Fulfilled (to_value blank_prefix_response)) None
  = Fulfilled [].
Proof.
  exact (proj1 (fetch_treats_empty_prefix_as_none (parse_table []) None
                  (properties_of (to_value blank_prefix_response))
                  (prefix_properties_of (to_value blank_prefix_response))
                  eq_refl eq_refl)).
Defined.

(** ** The execution request *)

Lemma exec_run_cons ev evs x :
  exec_run (ev :: evs) x = exec_run evs (exec_step x ev).
Proof. reflexivity. Qed.

Lemma exec_run_app evs1 evs2 x :
  exec_run (evs1 ++ evs2) x = exec_run evs2 (exec_run evs1 x).
Proof. apply fold_left_app. Qed.

(** Once the flag is set no event touches the resolution. *)
Lemma exec_step_resolved x ev :
  hasResolved x = true ->
  hasResolved (exec_step x ev) = true /\
  resolution (exec_step x ev) = resolution x /\
  resolveCalls (exec_step x ev) = resolveCalls x.
Proof.
  intros H.
  destruct ev as [[]|]; cbn; unfold onExecTimeout; rewrite ?H; cbn; auto.
Qed.

Lemma exec_run_resolved evs x :
  hasResolved x = true ->
  hasResolved (exec_run evs x) = true /\
  resolution (exec_run evs x) = resolution x /\
  resolveCalls (exec_run evs x) = resolveCalls x.
Proof.
  revert x. induction evs as [|ev evs IH]; intros x H; [auto|].
  destruct (exec_step_resolved x ev H) as (H1 & H2 & H3).
  destruct (IH _ H1) as (I1 & I2 & I3). rewrite exec_run_cons, I2, I3. auto.
Qed.

Lemma terminal_outcome_kind ev r :
  terminal_outcome ev = Some r -> exists k, outcome_kind r = Some k.
Proof. destruct ev as [[]|]; cbn; intros [= <-]; cbn; eauto. Qed.

Lemma exec_step_unresolved x ev :
  hasResolved x = false -> resolution x = None -> resolveCalls x = [] ->
  match terminal_outcome ev with
  | Some r =>
      hasResolved (exec_step x ev) = true /\
      resolution (exec_step x ev) = Some r /\
      resolveCalls (exec_step x ev) = [r]
  | None =>
      hasResolved (exec_step x ev) = false /\
      resolution (exec_step x ev) = None /\
      resolveCalls (exec_step x ev) = []
  end.
Proof.
  intros H1 H2 H3.
  destruct ev as [[]|]; cbn; unfold onExecTimeout; rewrite ?H1; cbn;
    rewrite ?H2, ?H3; auto.
Qed.

(** The request resolves exactly with the first terminal event. *)
Lemma exec_run_first_terminal evs x :
  hasResolved x = false -> resolution x = None -> resolveCalls x = [] ->
  resolution (exec_run evs x) = first_terminal evs /\
  resolveCalls (exec_run evs x) = option_list (first_terminal evs) /\
  hasResolved (exec_run evs x) = bool_decide (is_Some (first_terminal evs)).
Proof.
  revert x. induction evs as [|ev evs IH]; intros x H1 H2 H3.
  - cbn. auto.
  - pose proof (exec_step_unresolved x ev H1 H2 H3) as Hs.
    rewrite exec_run_cons. cbn [first_terminal].
    destruct (terminal_outcome ev) as [r|].
    + destruct Hs as (S1 & S2 & S3).
      destruct (exec_run_resolved evs _ S1) as (R1 & R2 & R3).
      rewrite R1, R2, R3, S2, S3. auto.
    + destruct Hs as (S1 & S2 & S3). apply (IH _ S1 S2 S3).
Qed.

Lemma first_terminal_timer before after :
  exists r, first_terminal (before ++ ExecTimerFires :: after) = Some r /\
            exists k, outcome_kind r = Some k.
Proof.
  induction before as [|ev before IH]; cbn.
  - eauto.
  - destruct (terminal_outcome ev) as [r|] eqn:E; [|exact IH].
    exists r. split; [reflexivity|]. eapply terminal_outcome_kind; eauto.
Qed.

(** ** The readiness waiter *)

Lemma wait_run_cons ev evs w :
  wait_run (ev :: evs) w = wait_run evs (wait_step w ev).
Proof. reflexivity. Qed.

(** A settled wait stays as it settled. *)
Lemma wait_step_settled w ev :
  ready w <> Pending -> ready (wait_step w ev) = ready w.
Proof.
  intros H. destruct ev as [st|]; cbn;
    [destruct (observer_connected w); [destruct st; cbn|]
    |destruct (timer_armed w); cbn];
    destruct (ready w); cbn; congruence.
Qed.

Lemma wait_run_settled evs w :
  ready w <> Pending -> ready (wait_run evs w) = ready w.
Proof.
  revert w. induction evs as [|ev evs IH]; intros w H; [reflexivity|].
  rewrite wait_run_cons, IH; [apply wait_step_settled; exact H|].
  rewrite wait_step_settled; exact H.
Qed.

(** While the wait is pending its timer is armed, so the expiry of the
    timer settles it at the latest. *)
Lemma wait_step_armed w ev :
  (ready w = Pending -> timer_armed w = true) ->
  ready (wait_step w ev) = Pending -> timer_armed (wait_step w ev) = true.
Proof.
  intros H. destruct ev as [st|]; cbn.
  - destruct (observer_connected w); [|exact H].
    destruct st; cbn; try exact H; destruct (ready w); cbn; congruence.
  - destruct (timer_armed w) eqn:E; [|rewrite E; exact H].
    cbn. destruct (ready w); cbn; congruence.
Qed.

Lemma wait_run_armed evs w :
  (ready w = Pending -> timer_armed w = true) ->
  ready (wait_run evs w) = Pending -> timer_armed (wait_run evs w) = true.
Proof.
  revert w. induction evs as [|ev evs IH]; intros w H; [exact H|].
  rewrite wait_run_cons. apply IH, wait_step_armed, H.
Qed.

Lemma waitForKernelReady_settles kernel before after :
  ready (wait_run (before ++ WaitTimerFires :: after) (waitForKernelReady kernel))
  <> Pending.
Proof.
  unfold wait_run. rewrite fold_left_app. fold (wait_run before (waitForKernelReady kernel)).
  set (w := wait_run before (waitForKernelReady kernel)).
  assert (Harmed : ready w = Pending -> timer_armed w = true).
  { apply wait_run_armed. destruct kernel as [[]]; cbn; congruence. }
  change (ready (wait_run after (wait_step w WaitTimerFires)) <> Pending).
  assert (Hfired : ready (wait_step w WaitTimerFires) <> Pending).
  { cbn. destruct (timer_armed w) eqn:E.
    - cbn. destruct (ready w); cbn; congruence.
    - intros Hp. apply Harmed in Hp. congruence. }
  rewrite wait_run_settled; exact Hfired.
Qed.

(** However the kernel moves between statuses that are neither ready nor
    bad, the expiry of the timer rejects the wait and leaves the observer
    connected. *)
Lemma wait_timeout_keeps_observer (sts : list Kernel.Status) :
  let quiet :=
    List.filter (fun st => negb (includes readyStatuses st)
                           && negb (includes badStatuses st)) sts in
  let w := wait_run (map StatusBecomes quiet ++ [WaitTimerFires])
             (waitForKernelReady {| Kernel.status := Kernel.busy |}) in
  ready w = Rejected (ExnKernelError (new_KernelError timeout None)) /\
  observer_connected w = true.
Proof.
  cbv zeta. unfold wait_run. rewrite fold_left_app.
  set (start := waitForKernelReady _).
  assert (H : forall w, ready w = Pending -> timer_armed w = true ->
                        observer_connected w = true ->
            let w' := fold_left wait_step
                        (map StatusBecomes
                           (List.filter
                              (fun st => negb (includes readyStatuses st)
                                         && negb (includes badStatuses st)) sts)) w in
            ready w' = Pending /\ timer_armed w' = true /\
            observer_connected w' = true).
  { induction sts as [|st sts IH]; intros w H1 H2 H3; [cbn; auto|].
    cbn [List.filter].
    destruct (negb (includes readyStatuses st) && negb (includes badStatuses st))
      eqn:E; [|apply IH; assumption].
    cbn [map fold_left]. apply IH; cbn [wait_step]; rewrite H3;
      destruct st; try discriminate E; cbn; assumption. }
  destruct (H start eq_refl eq_refl eq_refl) as (H1 & H2 & H3).
  cbv zeta in H1, H2, H3. revert H1 H2 H3.
  generalize (fold_left wait_step
                (map StatusBecomes
                   (List.filter
                      (fun st => negb (includes readyStatuses st)
                                 && negb (includes badStatuses st)) sts)) start).
  intros w H1 H2 H3. cbn [fold_left wait_step]. rewrite H2.
  unfold onWaitTimeout. cbn [ready observer_connected]. rewrite H1, H3. auto.
Qed.

(** The wait rejects with nothing but a [KernelError]. *)
Lemma wait_step_rejects_typed w ev :
  (forall e, ready w = Rejected e -> exists k, e = ExnKernelError k) ->
  forall e, ready (wait_step w ev) = Rejected e -> exists k, e = ExnKernelError k.
Proof.
  intros H e. destruct ev as [st|]; cbn;
    [destruct (observer_connected w); [destruct st; cbn|]
    |destruct (timer_armed w); cbn];
    try apply H; destruct (ready w) eqn:E; cbn; intros [= <-]; eauto.
Qed.

Lemma wait_run_rejects_typed evs w :
  (forall e, ready w = Rejected e -> exists k, e = ExnKernelError k) ->
  forall e, ready (wait_run evs w) = Rejected e -> exists k, e = ExnKernelError k.
Proof.
  revert w. induction evs as [|ev evs IH]; intros w H; [exact H|].
  rewrite wait_run_cons. apply IH, wait_step_rejects_typed, H.
Qed.

Lemma waitForKernelReady_rejects_typed kernel evs e :
  ready (wait_run evs (waitForKernelReady kernel)) = Rejected e ->
  exists k, e = ExnKernelError k.
Proof.
  apply wait_run_rejects_typed. intros e'.
  destruct kernel as [[]]; cbn; intros [= <-]; eauto.
Qed.

(** C1. Whatever messages arrive before and after the timer of an execution
    request fires, [resolve] is called exactly once, with a result envelope,
    an execution error or the timeout error: the outcome of the first
    terminal event.  From then on no event changes the resolution, a stray
    error after a result included; and a stream message changes neither the
    flag nor the resolution in any state.  On an idle kernel [queryKernel]
    fulfils with that one outcome. *)
Theorem queryKernel_resolves_exactly_once
  (code : string) (before after later : list ExecEvent)
  (statuses : list WaitEvent) :
  let evs := before ++ ExecTimerFires :: after in
  let x := exec_run evs requestExecute in
  exists r k,
    first_terminal evs = Some r /\
    outcome_kind r = Some k /\
    resolveCalls x = [r] /\
    resolution x = Some r /\
    hasResolved x = true /\
    resolution (exec_run later x) = Some r /\
    resolveCalls (exec_run later x) = [r] /\
    (forall y name text,
       resolution (onIOPub (Kernel.stream name text) y) = resolution y /\
       resolveCalls (onIOPub (Kernel.stream name text) y) = resolveCalls y /\
       hasResolved (onIOPub (Kernel.stream name text) y) = hasResolved y) /\
    queryKernel code (session_with Kernel.idle)
      {| status_events := statuses; exec_events := evs ++ later |}
    = Fulfilled r.
Proof.
  intros evs x.
  destruct (first_terminal_timer before after) as (r & Hr & k & Hk).
  destruct (exec_run_first_terminal evs requestExecute eq_refl eq_refl eq_refl)
    as (E1 & E2 & E3).
  fold x in E1, E2, E3. fold evs in Hr. rewrite Hr in E1, E2, E3.
  assert (Hres : hasResolved x = true).
  { rewrite E3. apply bool_decide_eq_true_2. eauto. }
  destruct (exec_run_resolved later x Hres) as (L1 & L2 & L3).
  cbn [option_list] in E2.
  exists r, k. rewrite L2, L3.
  do 7 (split; [assumption || reflexivity|]).
  split; [intros y name text; cbn; auto|].
  unfold queryKernel. cbn [session_with kernel_of Kernel.session Kernel.kernel].
  rewrite wait_run_settled by discriminate.
  cbn [waitForKernelReady Kernel.status includes readyStatuses existsb
       Kernel.Status_eqb orb ready status_events exec_events].
  rewrite exec_run_app. fold x. rewrite L2, E1. reflexivity.
Qed.

(** C4. A kernel that is busy when [waitForKernelReady] is called and stays
    so until the timer fires: the wait rejects with the timeout error and
    [onStatusChanged] is still connected to the kernel's signal, while the
    ready and the bad-status exits, from the same start, both disconnect
    it. *)
Theorem waitForKernelReady_timeout_keeps_observer :
  let started := waitForKernelReady {| Kernel.status := Kernel.busy |} in
  ready started = Pending /\
  observer_connected started = true /\
  ready (wait_run [WaitTimerFires] started)
  = Rejected (ExnKernelError (new_KernelError timeout None)) /\
  observer_connected (wait_run [WaitTimerFires] started) = true /\
  observer_connected (wait_run [StatusBecomes Kernel.idle] started) = false /\
  observer_connected (wait_run [StatusBecomes Kernel.dead] started) = false.
Proof. cbv zeta. repeat split. Qed.

(** Once both timers have had their turn the call has returned. *)
Lemma queryKernel_settles code sessionContext sb sa eb ea :
  exists q,
    queryKernel code sessionContext
      {| status_events := sb ++ WaitTimerFires :: sa;
         exec_events := eb ++ ExecTimerFires :: ea |}
    = Fulfilled q.
Proof.
  unfold queryKernel. destruct (kernel_of sessionContext) as [kernel|]; [|eauto].
  cbn [status_events exec_events].
  pose proof (waitForKernelReady_settles kernel sb sa) as Hw.
  destruct (ready _) as [|[]|e]; [congruence| |eauto].
  destruct (first_terminal_timer eb ea) as (r & Hr & _).
  destruct (exec_run_first_terminal (eb ++ ExecTimerFires :: ea) requestExecute
              eq_refl eq_refl eq_refl) as (E1 & _).
  rewrite E1, Hr. eauto.
Qed.

(** C9. [queryKernel] reports every failure in the [error] field of a
    fulfilled result and never rejects.  Without a live kernel connection
    (no session context, no session, or no kernel) it answers at once with
    [not_available]; an error of the readiness wait is passed on as it is
    when it is a [KernelError] and replaced by [not_ready] otherwise.  Once
    the timers of the wait and of the request have fired the call has
    returned. *)
Theorem queryKernel_reports_typed_errors (code : string) (w : World) :
  (forall sessionContext e, queryKernel code sessionContext w <> Rejected e) /\
  (forall sessionContext,
     kernel_of sessionContext = None ->
     queryKernel code sessionContext w
     = Fulfilled (mkQueryResult None (Some (new_KernelError not_available None)))
     /\ type (new_KernelError not_available None) = not_available) /\
  (forall sessionContext kernel e,
     kernel_of sessionContext = Some kernel ->
     ready (wait_run (status_events w) (waitForKernelReady kernel)) = Rejected e ->
     queryKernel code sessionContext w = Fulfilled (on_wait_error e)) /\
  (forall k, on_wait_error (ExnKernelError k) = mkQueryResult None (Some k)) /\
  (forall e, (forall k, e <> ExnKernelError k) ->
     on_wait_error e = mkQueryResult None (Some (new_KernelError not_ready None))
     /\ type (new_KernelError not_ready None) = not_ready) /\
  (forall sessionContext sb sa eb ea,
     exists q,
       queryKernel code sessionContext
         {| status_events := sb ++ WaitTimerFires :: sa;
            exec_events := eb ++ ExecTimerFires :: ea |}
       = Fulfilled q).
Proof.
  split; [|split; [|split; [|split; [|split]]]];
    [| | | | |intros; apply queryKernel_settles].
  - intros sc e. unfold queryKernel. destruct (kernel_of sc); [|discriminate].
    destruct (ready _); [discriminate| |discriminate].
    destruct (resolution _); discriminate.
  - intros sc H. unfold queryKernel. rewrite H. auto.
  - intros sc kernel e H Hw. unfold queryKernel. rewrite H, Hw. reflexivity.
  - reflexivity.
  - intros e H. split; [|reflexivity].
    destruct e as [k| | |]; [destruct (H k eq_refl)|..]; reflexivity.
Qed.

Lemma queryKernel_reports_typed_errors_witness :
  queryKernel "1" (Some {| Kernel.session := None |})
    {| status_events := []; exec_events := [] |}
  = Fulfilled (mkQueryResult None (Some (new_KernelError not_available None))) /\
  queryKernel "1" (session_with Kernel.starting)
    {| status_events := [StatusBecomes Kernel.dead]; exec_events := [] |}
  = Fulfilled (mkQueryResult None (Some (new_KernelError dead None))) /\
  on_wait_error (ExnError "signal is disposed")
  = mkQueryResult None (Some (new_KernelError not_ready None)).
Proof.
  split; [|split].
  - exact (proj1 (proj1 (proj2
      (queryKernel_reports_typed_errors "1"
         {| status_events := []; exec_events := [] |}))
      (Some {| Kernel.session := None |}) eq_refl)).
  - exact (proj1 (proj2 (proj2
      (queryKernel_reports_typed_errors "1"
         {| status_events := [StatusBecomes Kernel.dead]; exec_events := [] |})))
      (session_with Kernel.starting) {| Kernel.status := Kernel.starting |}
      (ExnKernelError (new_KernelError dead None)) eq_refl eq_refl).
  - refine (proj1 (proj1 (proj2 (proj2 (proj2 (proj2
      (queryKernel_reports_typed_errors "1"
         {| status_events := []; exec_events := [] |})))))
      (ExnError "signal is disposed") _)).
    intros k; discriminate.
Defined.

(** ** The shared session *)

Lemma run_cons ev evs s : run (ev :: evs) s = run evs (step s ev).
Proof. reflexivity. Qed.

Lemma run_app evs1 evs2 s : run (evs1 ++ evs2) s = run evs2 (run evs1 s).
Proof. apply fold_left_app. Qed.

Lemma partition_followers p cs :
  List.partition (fun w : Caller * Role * PromiseId => Nat.eqb (snd w) p)
    (followers p cs) = (followers p cs, []).
Proof.
  unfold followers. induction cs as [|c cs IH]; [reflexivity|].
  cbn [map List.partition]. rewrite IH. cbn. rewrite Nat.eqb_refl. reflexivity.
Qed.

Lemma resume_followers r p cs s :
  fold_left (fun s w => resume r w s) (followers p cs) s
  = mkState (sharedSessionContext s) (sharedSessionPromise s)
      (sharedSessionError s) (awaiting s) (returned s ++ deliveries r cs)
      (initializations s) (kernelRequests s) (deathMonitors s).
Proof.
  unfold followers, deliveries. revert s.
  induction cs as [|c cs IH]; intros s.
  - cbn. rewrite app_nil_r. destruct s; reflexivity.
  - cbn [map fold_left]. rewrite IH. cbn.
    rewrite <- app_assoc. reflexivity.
Qed.

(** When the creator and its followers are the suspended calls, settling
    the promise resumes them all with the same completion, and the
    creator's catch block clears the promise on a rejection. *)
Lemma resume_all_in_flight r p c cs s :
  awaiting s = (c, Creator, p) :: followers p cs ->
  resume_all r p s
  = mkState (sharedSessionContext s)
      (match r with Ok _ => sharedSessionPromise s | Throw _ => None end)
      (sharedSessionError s) [] (returned s ++ deliveries r (c :: cs))
      (initializations s) (kernelRequests s) (deathMonitors s).
Proof.
  intros H. unfold resume_all. rewrite H.
  cbn [List.partition]. rewrite partition_followers. cbn [snd].
  rewrite Nat.eqb_refl. cbn [fold_left]. rewrite resume_followers.
  cbn. rewrite <- app_assoc. destruct r; reflexivity.
Qed.

Lemma consistent_step s ev : consistent s -> consistent (step s ev).
Proof.
  unfold consistent. intros H. destruct ev as [c|m|st rc]; cbn [step].
  - unfold getOrCreateSharedSession.
    destruct (sharedSessionContext s) as [sc|]; [exact H|].
    destruct (sharedSessionPromise s) as [p|]; cbn.
    + destruct H as (Hm & c0 & cs & Ha). split; [exact Hm|].
      exists c0, (cs ++ [c]). rewrite Ha. unfold followers.
      rewrite map_app. reflexivity.
    + destruct H as (Hm & Ha). split; [exact Hm|].
      exists c, []. rewrite Ha. reflexivity.
  - unfold initialization_settles.
    destruct (sharedSessionContext s) as [sc|] eqn:Ec; [rewrite Ec; exact H|].
    destruct (sharedSessionPromise s) as [p|] eqn:Ep; [|rewrite Ec, Ep; exact H].
    destruct H as (Hm & c0 & cs & Ha).
    destruct (initialization m) as [[[]|e] k].
    + erewrite resume_all_in_flight by (cbn; exact Ha). cbn. rewrite Hm. auto.
    + erewrite resume_all_in_flight by (cbn; exact Ha). cbn. auto.
  - unfold statusChanged_emits.
    destruct (sharedSessionContext s) as [sc|] eqn:Ec.
    + destruct (sharedSessionPromise s) as [p|] eqn:Ep; [|contradiction].
      destruct H as (-> & Ha & Hm). rewrite Hm. cbn.
      unfold on_statusChanged. destruct st as [[]|]; cbn; rewrite ?Ec, ?Ep; auto.
    + destruct (sharedSessionPromise s) as [p|] eqn:Ep.
      * destruct H as (Hm & H). rewrite Hm. cbn. rewrite Ec, Ep. auto.
      * destruct H as (Hm & H). rewrite Hm. cbn. rewrite Ec, Ep. auto.
Qed.

Lemma consistent_run evs s : consistent s -> consistent (run evs s).
Proof.
  revert s. induction evs as [|ev evs IH]; intros s H; [exact H|].
  rewrite run_cons. apply IH, consistent_step, H.
Qed.

Lemma reachable_consistent s : reachable s -> consistent s.
Proof. intros [evs ->]. apply consistent_run. cbn. auto. Qed.

(** Calls that arrive while the promise [p] is in flight queue up behind
    its creator and start nothing. *)
Lemma acquire_in_flight cs s p c cs0 :
  sharedSessionContext s = None ->
  sharedSessionPromise s = Some p ->
  awaiting s = (c, Creator, p) :: followers p cs0 ->
  run (map Acquire cs) s
  = mkState None (Some p) (sharedSessionError s)
      ((c, Creator, p) :: followers p (cs0 ++ cs)) (returned s)
      (initializations s) (kernelRequests s) (deathMonitors s).
Proof.
  revert s cs0. induction cs as [|c' cs IH]; intros s cs0 Hc Hp Ha.
  - cbn. rewrite app_nil_r, <- Hc, <- Hp, <- Ha. destruct s; reflexivity.
  - cbn [map]. rewrite run_cons.
    rewrite (IH _ (cs0 ++ [c'])); cbn [step]; unfold getOrCreateSharedSession;
      rewrite Hc, Hp; cbn; try reflexivity.
    + rewrite <- app_assoc. reflexivity.
    + rewrite Ha. unfold followers. rewrite map_app. reflexivity.
Qed.

Lemma initialization_requests m : snd (initialization m) <= 1.
Proof.
  unfold initialization. destruct (kernelspecs_ready m); cbn; [|lia].
  destruct (negb _); cbn; [lia|].
  destruct (initialize m) as [[]|]; cbn; try lia.
  destruct (changeKernel_race m); cbn; lia.
Qed.

(** C2. From a state in which no session exists and no initialization is
    in flight, let any number of callers ask for the session before the
    initialization settles.  The first call starts one initialization and
    the others start none: all of them wait on the promise of that one run,
    which requests at most one kernel.  When it settles every caller
    receives the same completion, the same session or the same error.
    After an error no session exists and the promise is cleared, so that
    the next call starts a new initialization. *)
Theorem concurrent_acquisition_shares_one_initialization
  (s0 : State) (c : Caller) (cs : list Caller) (m : Services) :
  reachable s0 ->
  sharedSessionContext s0 = None ->
  sharedSessionPromise s0 = None ->
  let p := initializations s0 in
  let waiting := run (map Acquire (c :: cs)) s0 in
  let s := step waiting (InitializationSettles m) in
  initializations waiting = S (initializations s0) /\
  sharedSessionPromise waiting = Some p /\
  awaiting waiting = (c, Creator, p) :: followers p cs /\
  returned waiting = returned s0 /\
  initializations s = S (initializations s0) /\
  kernelRequests s <= S (kernelRequests s0) /\
  awaiting s = [] /\
  exists r,
    returned s = returned s0 ++ deliveries r (c :: cs) /\
    match r with
    | Ok sc => sharedSessionContext s = Some sc /\ sc = p
    | Throw _ =>
        sharedSessionContext s = None /\
        sharedSessionPromise s = None /\
        forall c',
          initializations (step s (Acquire c')) = S (initializations s) /\
          sharedSessionPromise (step s (Acquire c')) = Some (initializations s) /\
          awaiting (step s (Acquire c')) = [(c', Creator, initializations s)]
    end.
Proof.
  intros Hreach Hc Hp p waiting s.
  pose proof (reachable_consistent _ Hreach) as Hcons.
  unfold consistent in Hcons. rewrite Hc, Hp in Hcons. destruct Hcons as (Hm & Ha).
  assert (Hw : waiting
               = mkState None (Some p) (sharedSessionError s0)
                   ((c, Creator, p) :: followers p cs) (returned s0)
                   (S (initializations s0)) (kernelRequests s0) 0).
  { unfold waiting. cbn [map]. rewrite run_cons.
    rewrite (acquire_in_flight cs _ p c []); cbn [step];
      unfold getOrCreateSharedSession; rewrite Hc, Hp; cbn;
      rewrite ?Ha, ?Hm; reflexivity. }
  unfold s. rewrite Hw. cbn [initializations sharedSessionPromise awaiting returned].
  do 4 (split; [reflexivity|]).
  cbn [step]. unfold initialization_settles.
  cbn [sharedSessionContext sharedSessionPromise].
  pose proof (initialization_requests m) as Hk.
  destruct (initialization m) as [[[]|e] k]; cbn [snd] in Hk.
  - erewrite resume_all_in_flight by reflexivity. cbn.
    split; [reflexivity|]. split; [lia|]. split; [reflexivity|].
    exists (Ok p). auto.
  - erewrite resume_all_in_flight by reflexivity. cbn.
    split; [reflexivity|]. split; [lia|]. split; [reflexivity|].
    exists (Throw e). repeat split.
Qed.

Lemma concurrent_acquisition_shares_one_initialization_witness :
  let s := run [Acquire 1; Acquire 2; Acquire 3;
                InitializationSettles services_slow] initial in
  initializations s = 1 /\
  kernelRequests s <= 1 /\
  awaiting s = [] /\
  exists r, returned s = [(1, r); (2, r); (3, r)].
Proof.
  destruct (concurrent_acquisition_shares_one_initialization
              initial 1 [2; 3] services_slow
              (ex_intro _ [] eq_refl) eq_refl eq_refl)
    as (_ & _ & _ & _ & Hi & Hk & Ha & r & Hr & _).
  split; [exact Hi|]. split; [exact Hk|]. split; [exact Ha|].
  exists r. exact Hr.
Defined.

(** C5, as the code has it. When the status handler of the established
    shared session sees the kernel dead, it asks for a new kernel exactly
    once and starts no initialization.  If that succeeds the recorded
    shared error is cleared; if it fails the error is recorded and the
    session stays the shared one: the next call for the session returns it
    at once, starts no initialization and leaves the recorded error in
    place. *)
Theorem dead_kernel_triggers_one_reconnection
  (s0 : State) (sc : SessionId) (reconnect : result unit) :
  reachable s0 ->
  sharedSessionContext s0 = Some sc ->
  let s := step s0 (StatusChanged (Some Kernel.dead) reconnect) in
  kernelRequests s = S (kernelRequests s0) /\
  initializations s = initializations s0 /\
  sharedSessionContext s = Some sc /\
  sharedSessionError s
  = match reconnect with
    | Ok _ => None
    | Throw _ => Some (ExnError "Kernel died and reconnection failed")
    end /\
  forall c,
    returned (step s (Acquire c)) = returned s ++ [(c, Ok sc)] /\
    initializations (step s (Acquire c)) = initializations s /\
    kernelRequests (step s (Acquire c)) = kernelRequests s /\
    sharedSessionContext (step s (Acquire c)) = Some sc /\
    sharedSessionError (step s (Acquire c)) = sharedSessionError s.
Proof.
  intros Hreach Hc s.
  pose proof (reachable_consistent _ Hreach) as Hcons.
  unfold consistent in Hcons. rewrite Hc in Hcons.
  destruct (sharedSessionPromise s0) as [p|] eqn:Hp; [|contradiction].
  destruct Hcons as (-> & Ha & Hm).
  unfold s. cbn [step]. unfold statusChanged_emits. rewrite Hm.
  cbn [Nat.iter nat_rect on_statusChanged]. cbn. rewrite Hc.
  do 4 (split; [reflexivity|]).
  intros c. unfold getOrCreateSharedSession. cbn. auto.
Qed.

Lemma dead_kernel_triggers_one_reconnection_witness :
  let s0 := run [Acquire 1; InitializationSettles services_ok] initial in
  let s := step s0 (StatusChanged (Some Kernel.dead) (Ok tt)) in
  sharedSessionContext s0 = Some 0 /\
  kernelRequests s = S (kernelRequests s0) /\
  sharedSessionError s = None.
Proof.
  destruct (dead_kernel_triggers_one_reconnection
              (run [Acquire 1; InitializationSettles services_ok] initial)
              0 (Ok tt) (ex_intro _ _ eq_refl) eq_refl)
    as (Hk & _ & _ & He & _).
  split; [reflexivity|]. split; [exact Hk|exact He].
Defined.

(** C5, as the claim has it, fails: after a failed reconnection the next
    call for the session starts no initialization; it is handed the same
    session, and the recorded error stays. *)
Lemma no_reinitialization_after_failed_reconnection :
  let s := run [Acquire 1; InitializationSettles services_ok;
                StatusChanged (Some Kernel.dead) (Throw (ExnError "no kernel"))]
             initial in
  let s' := step s (Acquire 2) in
  sharedSessionError s = Some (ExnError "Kernel died and reconnection failed") /\
  initializations s = 1 /\
  initializations s' = 1 /\
  returned s' = [(1, Ok 0); (2, Ok 0)] /\
  sharedSessionError s' = Some (ExnError "Kernel died and reconnection failed").
Proof. cbv zeta. repeat split. Qed.

(** ** Further properties

    Facts about texts used below. *)





Lemma string_length_app (s t : string) :
  String.length (s ++ t)%string = String.length s + String.length t.
Proof.
  induction s as [|c s IH]; [reflexivity|].
  rewrite append_cons. cbn. rewrite IH. reflexivity.
Qed.

Lemma string_app_assoc (a b c : string) :
  ((a ++ b) ++ c)%string = (a ++ b ++ c)%string.
Proof.
  induction a as [|x a IH]; [reflexivity|].
  rewrite !append_cons, IH. reflexivity.
Qed.

Lemma append_inj_l (p a b : string) : (p ++ a)%string = (p ++ b)%string -> a = b.
Proof. induction p as [|c p IH]; cbn; [auto|]. intros [= H]. auto. Qed.

(** *** The shared session over whole histories *)

Lemma acquirers_app evs1 evs2 :
  acquirers (evs1 ++ evs2) = acquirers evs1 ++ acquirers evs2.
Proof.
  induction evs1 as [|[] evs1 IH]; cbn; rewrite ?IH; reflexivity.
Qed.

Lemma on_statusChanged_keeps st rc s :
  sharedSessionContext (on_statusChanged st rc s) = sharedSessionContext s /\
  initializations (on_statusChanged st rc s) = initializations s /\
  returned (on_statusChanged st rc s) = returned s /\
  awaiting (on_statusChanged st rc s) = awaiting s /\
  sharedSessionPromise (on_statusChanged st rc s) = sharedSessionPromise s /\
  deathMonitors (on_statusChanged st rc s) = deathMonitors s.
Proof. unfold on_statusChanged. destruct st as [[]|]; cbn; repeat split. Qed.

Lemma iter_statusChanged_keeps n st rc s :
  sharedSessionContext (Nat.iter n (on_statusChanged st rc) s)
  = sharedSessionContext s /\
  initializations (Nat.iter n (on_statusChanged st rc) s) = initializations s /\
  returned (Nat.iter n (on_statusChanged st rc) s) = returned s /\
  awaiting (Nat.iter n (on_statusChanged st rc) s) = awaiting s /\
  sharedSessionPromise (Nat.iter n (on_statusChanged st rc) s)
  = sharedSessionPromise s /\
  deathMonitors (Nat.iter n (on_statusChanged st rc) s) = deathMonitors s.
Proof.
  induction n as [|n IH]; cbn [Nat.iter nat_rect]; [repeat split|].
  destruct IH as (I1 & I2 & I3 & I4 & I5 & I6).
  destruct (on_statusChanged_keeps st rc (Nat.iter n (on_statusChanged st rc) s))
    as (K1 & K2 & K3 & K4 & K5 & K6).
  unfold Nat.iter in *. repeat split; congruence.
Qed.

Lemma statusChanged_keeps_session st rc s :
  sharedSessionContext (statusChanged_emits st rc s) = sharedSessionContext s /\
  initializations (statusChanged_emits st rc s) = initializations s /\
  returned (statusChanged_emits st rc s) = returned s /\
  awaiting (statusChanged_emits st rc s) = awaiting s /\
  sharedSessionPromise (statusChanged_emits st rc s) = sharedSessionPromise s /\
  deathMonitors (statusChanged_emits st rc s) = deathMonitors s.
Proof. apply iter_statusChanged_keeps. Qed.

(** X1. Once a shared session exists, no sequence of calls, settlements and
    status changes replaces or clears it or starts another initialization,
    and every call made from then on is answered at once with that
    session. *)
Theorem established_session_is_permanent
  (s : State) (sc : SessionId) (evs : list Event) :
  sharedSessionContext s = Some sc ->
  sharedSessionContext (run evs s) = Some sc /\
  initializations (run evs s) = initializations s /\
  returned (run evs s) = returned s ++ map (fun c => (c, Ok sc)) (acquirers evs).
Proof.
  revert s. induction evs as [|ev evs IH]; intros s Hc.
  - cbn. rewrite app_nil_r. auto.
  - rewrite run_cons. destruct ev as [c|m|st rc]; cbn [step acquirers].
    + assert (Hs : getOrCreateSharedSession c s
                   = mkState (sharedSessionContext s) (sharedSessionPromise s)
                       (sharedSessionError s) (awaiting s)
                       (returned s ++ [(c, Ok sc)]) (initializations s)
                       (kernelRequests s) (deathMonitors s)).
      { unfold getOrCreateSharedSession. rewrite Hc. reflexivity. }
      rewrite Hs.
      match goal with
      | |- context [run evs ?x] => destruct (IH x Hc) as (I1 & I2 & I3)
      end.
      rewrite I1, I2, I3. cbn. rewrite <- app_assoc. auto.
    + unfold initialization_settles. rewrite Hc. apply IH, Hc.
    + destruct (statusChanged_keeps_session st rc s) as (K1 & K2 & K3 & _).
      destruct (IH (statusChanged_emits st rc s)) as (I1 & I2 & I3); [congruence|].
      rewrite I1, I2, I3, K2, K3. auto.
Qed.

Lemma established_session_is_permanent_witness :
  sharedSessionContext (run after_establishment established) = Some 0 /\
  initializations (run after_establishment established)
  = initializations established /\
  returned (run after_establishment established)
  = returned established
    ++ map (fun c => (c, Ok 0)) (acquirers after_establishment).
Proof.
  exact (established_session_is_permanent established 0 after_establishment
           eq_refl).
Defined.

Lemma statusChanged_consistent st rc s :
  consistent s ->
  statusChanged_emits st rc s
  = match sharedSessionContext s with
    | Some _ => on_statusChanged st rc s
    | None => s
    end.
Proof.
  unfold consistent, statusChanged_emits. intros H.
  destruct (sharedSessionContext s), (sharedSessionPromise s);
    try contradiction; destruct H as (H1 & H2); try destruct H2 as (H2 & H3);
    rewrite ?H1, ?H3; reflexivity.
Qed.

Lemma settle_consistent m s p :
  consistent s ->
  sharedSessionContext s = None -> sharedSessionPromise s = Some p ->
  exists c cs,
    awaiting s = (c, Creator, p) :: followers p cs /\
    initialization_settles m s
    = match fst (initialization m) with
      | Ok _ =>
          mkState (Some p) (Some p) (sharedSessionError s) []
            (returned s ++ deliveries (Ok p) (c :: cs)) (initializations s)
            (kernelRequests s + snd (initialization m)) (S (deathMonitors s))
      | Throw e =>
          mkState None None (sharedSessionError s) []
            (returned s ++ deliveries (Throw e) (c :: cs)) (initializations s)
            (kernelRequests s + snd (initialization m)) (deathMonitors s)
      end.
Proof.
  unfold consistent. intros H Hc Hp. rewrite Hc, Hp in H.
  destruct H as (Hm & c & cs & Ha). exists c, cs. split; [exact Ha|].
  unfold initialization_settles. rewrite Hc, Hp.
  destruct (initialization m) as [[[]|e] k]; cbn [fst snd];
    erewrite resume_all_in_flight by (cbn; exact Ha); reflexivity.
Qed.

Lemma provisioning_bound evs s :
  consistent s ->
  initializations (run evs s) + (if in_progress (run evs s) then 0 else 1)
  <= initializations s + (if in_progress s then 0 else 1)
     + failing_settlements evs /\
  kernelRequests (run evs s) + (if in_flight (run evs s) then 1 else 0)
  + initializations s
  <= kernelRequests s + (if in_flight s then 1 else 0)
     + initializations (run evs s) + dead_signals evs.
Proof.
  revert s. induction evs as [|ev evs IH]; intros s Hcons; [cbn; lia|].
  rewrite run_cons.
  pose proof (IH _ (consistent_step s ev Hcons)) as (I1 & I2).
  assert (initializations (step s ev) + (if in_progress (step s ev) then 0 else 1)
          + failing_settlements evs
          <= initializations s + (if in_progress s then 0 else 1)
             + failing_settlements (ev :: evs) /\
          kernelRequests (step s ev) + (if in_flight (step s ev) then 1 else 0)
          + initializations s + dead_signals evs
          <= kernelRequests s + (if in_flight s then 1 else 0)
             + initializations (step s ev) + dead_signals (ev :: evs)) as (S1 & S2);
    [|lia].
  clear I1 I2 IH.
  destruct ev as [c|m|st rc]; cbn [step failing_settlements dead_signals].
  - unfold getOrCreateSharedSession, in_progress, in_flight.
    destruct (sharedSessionContext s) eqn:Ec; [cbn; rewrite ?Ec; cbn; lia|].
    destruct (sharedSessionPromise s) eqn:Ep; cbn; rewrite ?Ec, ?Ep; cbn; lia.
  - destruct (sharedSessionContext s) as [sc|] eqn:Ec;
      [unfold initialization_settles; rewrite Ec;
       destruct (fst (initialization m)); lia|].
    destruct (sharedSessionPromise s) as [p|] eqn:Ep;
      [|unfold initialization_settles; rewrite Ec, Ep;
        destruct (fst (initialization m)); lia].
    destruct (settle_consistent m s p Hcons Ec Ep) as (c & cs & _ & ->).
    pose proof (initialization_requests m) as Hk.
    unfold in_progress, in_flight. rewrite Ec, Ep.
    destruct (fst (initialization m)); cbn; lia.
  - rewrite (statusChanged_consistent st rc s Hcons).
    unfold in_progress, in_flight, on_statusChanged.
    destruct (sharedSessionContext s) eqn:Ec;
      destruct (sharedSessionPromise s) eqn:Ep;
      destruct st as [[]|]; cbn; rewrite ?Ec, ?Ep; cbn; lia.
Qed.

(** X2. Over any history of the module, the initializations started number
    at most one more than the settlements that failed, and the kernels
    requested at most the initializations started plus the status events
    that found the kernel dead. *)
Theorem provisioning_is_bounded_by_failures (evs : list Event) :
  initializations (run evs initial) <= 1 + failing_settlements evs /\
  kernelRequests (run evs initial)
  <= initializations (run evs initial) + dead_signals evs.
Proof.
  destruct (provisioning_bound evs initial) as (H1 & H2); [cbn; auto|].
  cbn in H1, H2.
  destruct (in_progress (run evs initial)), (in_flight (run evs initial)); lia.
Qed.






Lemma recorded_error_step s ev :
  consistent s ->
  (forall e, sharedSessionError s = Some e ->
     e = reconnection_failed /\ is_Some (sharedSessionContext s)) ->
  forall e, sharedSessionError (step s ev) = Some e ->
    e = reconnection_failed /\ is_Some (sharedSessionContext (step s ev)).
Proof.
  intros Hcons H e. destruct ev as [c|m|st rc]; cbn [step].
  - unfold getOrCreateSharedSession.
    destruct (sharedSessionContext s) eqn:Ec.
    + cbn. intros He. destruct (H e He). eauto.
    + destruct (sharedSessionPromise s); cbn; intros He;
        destruct (H e He) as (_ & [x Hx]); discriminate.
  - destruct (sharedSessionContext s) as [sc|] eqn:Ec.
    { unfold initialization_settles. rewrite Ec. intros He.
      destruct (H e He). eauto. }
    destruct (sharedSessionPromise s) as [p|] eqn:Ep.
    2:{ unfold initialization_settles. rewrite Ec, Ep. intros He.
        destruct (H e He) as (_ & [x Hx]); discriminate. }
    destruct (settle_consistent m s p Hcons Ec Ep) as (c & cs & _ & ->).
    destruct (fst (initialization m)); cbn; intros He;
      destruct (H e He) as (_ & [x Hx]); discriminate.
  - rewrite (statusChanged_consistent st rc s Hcons).
    destruct (sharedSessionContext s) as [sc|] eqn:Ec.
    2:{ intros He. destruct (H e He) as (_ & [x Hx]); discriminate. }
    unfold on_statusChanged.
    destruct st as [[]|]; cbn; rewrite ?Ec;
      try (intros He; destruct (H e He); eauto; fail).
    destruct rc; intros [= <-]. split; [reflexivity|eauto].
Qed.

Lemma recorded_error_run evs s :
  consistent s ->
  (forall e, sharedSessionError s = Some e ->
     e = reconnection_failed /\ is_Some (sharedSessionContext s)) ->
  forall e, sharedSessionError (run evs s) = Some e ->
    e = reconnection_failed /\ is_Some (sharedSessionContext (run evs s)).
Proof.
  revert s. induction evs as [|ev evs IH]; intros s Hcons H; [exact H|].
  rewrite run_cons. apply IH; [apply consistent_step, Hcons|].
  apply recorded_error_step; assumption.
Qed.

Lemma resume_keeps_error r w s :
  sharedSessionError (resume r w s) = sharedSessionError s.
Proof. destruct w as [[c role] p]. reflexivity. Qed.

Lemma resume_all_keeps_error r p s :
  sharedSessionError (resume_all r p s) = sharedSessionError s.
Proof.
  unfold resume_all. destruct (List.partition _ _) as [mine others].
  set (s0 := mkState _ _ _ _ _ _ _ _).
  change (sharedSessionError s) with (sharedSessionError s0).
  generalize s0. induction mine as [|w mine IH]; intros s1; [reflexivity|].
  cbn [fold_left]. rewrite IH. apply resume_keeps_error.
Qed.

Lemma quiet_kernel_keeps_error evs s :
  dead_signals evs = 0 ->
  sharedSessionError (run evs s) = sharedSessionError s.
Proof.
  revert s. induction evs as [|ev evs IH]; intros s Hd; [reflexivity|].
  rewrite run_cons. destruct ev as [c|m|st rc]; cbn [dead_signals] in Hd.
  - rewrite (IH _ Hd). cbn [step]. unfold getOrCreateSharedSession.
    destruct (sharedSessionContext s); [reflexivity|].
    destruct (sharedSessionPromise s); reflexivity.
  - rewrite (IH _ Hd). cbn [step]. unfold initialization_settles.
    destruct (sharedSessionContext s); [reflexivity|].
    destruct (sharedSessionPromise s) as [p|]; [|reflexivity].
    destruct (initialization m) as [[[]|e] k];
      rewrite resume_all_keeps_error; reflexivity.
  - assert (Hst : st <> Some Kernel.dead).
    { intros ->. discriminate. }
    assert (Hd' : dead_signals evs = 0).
    { destruct st as [[]|]; try exact Hd. discriminate. }
    rewrite (IH _ Hd'). cbn [step]. unfold statusChanged_emits.
    induction (deathMonitors s) as [|n IHn]; [reflexivity|].
    cbn [Nat.iter nat_rect]. unfold Nat.iter in IHn.
    unfold on_statusChanged at 1. destruct st as [[]|]; try exact IHn.
    congruence.
Qed.

(** X4. [sharedSessionError] is only ever the error of a failed
    reconnection: whenever it is set, it is that error, a shared session
    exists and the kernel was seen dead before.  A failed initialization
    never records it. *)
Theorem recorded_error_comes_from_failed_reconnection
  (evs : list Event) (e : exn) :
  sharedSessionError (run evs initial) = Some e ->
  e = reconnection_failed /\
  is_Some (sharedSessionContext (run evs initial)) /\
  0 < dead_signals evs.
Proof.
  intros He.
  destruct (recorded_error_run evs initial) with (e := e) as (H1 & H2);
    [cbn; auto|discriminate|exact He|].
  split; [exact H1|]. split; [exact H2|].
  destruct (dead_signals evs) eqn:Ed; [|lia].
  rewrite (quiet_kernel_keeps_error evs initial Ed) in He. discriminate.
Qed.

Lemma recorded_error_comes_from_failed_reconnection_witness :
  reconnection_failed = reconnection_failed /\
  is_Some (sharedSessionContext (run failed_reconnection initial)) /\
  0 < dead_signals failed_reconnection.
Proof.
  exact (recorded_error_comes_from_failed_reconnection failed_reconnection
           reconnection_failed eq_refl).
Defined.

(** *** The readiness waiter and the executor over whole traces *)

Lemma wait_run_detached evs w :
  timer_armed w = false -> observer_connected w = false ->
  ready (wait_run evs w) = ready w /\
  timer_armed (wait_run evs w) = false /\
  observer_connected (wait_run evs w) = false.
Proof.
  revert w. induction evs as [|ev evs IH]; intros w Ht Ho; [auto|].
  rewrite wait_run_cons.
  assert (ready (wait_step w ev) = ready w /\
          timer_armed (wait_step w ev) = false /\
          observer_connected (wait_step w ev) = false) as (S1 & S2 & S3).
  { destruct ev; cbn; rewrite ?Ho, ?Ht; cbn; auto. }
  destruct (IH _ S2 S3) as (I1 & I2 & I3). rewrite I1, S1. auto.
Qed.

(** X5. On a kernel that is idle at the call [waitForKernelReady] has
    succeeded at once, on a dead or unknown one it has failed at once with
    [dead] or [not_ready]; in each case no timer is armed and no observer
    connected, and nothing that happens later changes that. *)
Theorem waitForKernelReady_short_circuits (evs : list WaitEvent) :
  let at_once st := wait_run evs (waitForKernelReady {| Kernel.status := st |}) in
  (ready (at_once Kernel.idle) = Fulfilled tt /\
   timer_armed (at_once Kernel.idle) = false /\
   observer_connected (at_once Kernel.idle) = false) /\
  (ready (at_once Kernel.dead)
   = Rejected (ExnKernelError (new_KernelError dead None)) /\
   timer_armed (at_once Kernel.dead) = false /\
   observer_connected (at_once Kernel.dead) = false) /\
  (ready (at_once Kernel.unknown)
   = Rejected (ExnKernelError (new_KernelError not_ready None)) /\
   timer_armed (at_once Kernel.unknown) = false /\
   observer_connected (at_once Kernel.unknown) = false).
Proof.
  cbv zeta.
  pose proof (wait_run_detached evs
                (waitForKernelReady {| Kernel.status := Kernel.idle |})
                eq_refl eq_refl) as (I1 & I2 & I3).
  pose proof (wait_run_detached evs
                (waitForKernelReady {| Kernel.status := Kernel.dead |})
                eq_refl eq_refl) as (D1 & D2 & D3).
  pose proof (wait_run_detached evs
                (waitForKernelReady {| Kernel.status := Kernel.unknown |})
                eq_refl eq_refl) as (U1 & U2 & U3).
  rewrite I1, D1, U1. repeat split; assumption.
Qed.

Lemma wait_step_pending w ev :
  ready w = Pending -> timer_armed w = true -> observer_connected w = true ->
  match decisive ev with
  | Some outcome => ready (wait_step w ev) = outcome /\ outcome <> Pending
  | None =>
      ready (wait_step w ev) = Pending /\ timer_armed (wait_step w ev) = true /\
      observer_connected (wait_step w ev) = true
  end.
Proof.
  intros H1 H2 H3. destruct ev as [st|]; cbn; rewrite ?H2, ?H3.
  - destruct st; cbn; rewrite ?H1; cbn; auto; split; auto; discriminate.
  - cbn. rewrite H1. cbn. split; [reflexivity|discriminate].
Qed.

Lemma wait_run_first_decisive evs w :
  ready w = Pending -> timer_armed w = true -> observer_connected w = true ->
  ready (wait_run evs w) = first_decisive evs.
Proof.
  revert w. induction evs as [|ev evs IH]; intros w H1 H2 H3; [exact H1|].
  rewrite wait_run_cons. cbn [first_decisive].
  pose proof (wait_step_pending w ev H1 H2 H3) as Hs.
  destruct (decisive ev) as [outcome|].
  - destruct Hs as (Hs & Hn). rewrite wait_run_settled; congruence.
  - destruct Hs as (S1 & S2 & S3). apply IH; assumption.
Qed.

Lemma waitForKernelReady_pending st :
  pending_status st = true ->
  waitForKernelReady {| Kernel.status := st |} = mkWaiter st Pending true true.
Proof. destruct st; cbn; intros; try discriminate; reflexivity. Qed.

(** X6. From a status that is neither ready nor bad, the wait settles with
    the first decisive event and ignores what follows: an idle status
    succeeds, a dead one fails with [dead], an unknown one with
    [not_ready], the timer with [timeout]; until one comes it stays
    pending. *)
Theorem wait_settles_with_first_decisive_event
  (st : Kernel.Status) (evs : list WaitEvent) :
  pending_status st = true ->
  ready (wait_run evs (waitForKernelReady {| Kernel.status := st |}))
  = first_decisive evs.
Proof.
  intros H. rewrite (waitForKernelReady_pending st H).
  apply wait_run_first_decisive; reflexivity.
Qed.

Lemma wait_settles_with_first_decisive_event_witness :
  ready (wait_run [StatusBecomes Kernel.starting; StatusBecomes Kernel.idle;
                   WaitTimerFires]
           (waitForKernelReady {| Kernel.status := Kernel.busy |}))
  = first_decisive [StatusBecomes Kernel.starting; StatusBecomes Kernel.idle;
                    WaitTimerFires].
Proof.
  exact (wait_settles_with_first_decisive_event Kernel.busy
           [StatusBecomes Kernel.starting; StatusBecomes Kernel.idle;
            WaitTimerFires] eq_refl).
Defined.

Lemma wait_run_disconnected evs w :
  observer_connected w = false -> observer_connected (wait_run evs w) = false.
Proof.
  revert w. induction evs as [|ev evs IH]; intros w H; [exact H|].
  rewrite wait_run_cons. apply IH. destruct ev; cbn; rewrite ?H; cbn; [reflexivity|].
  destruct (timer_armed w); cbn; exact H.
Qed.

Lemma wait_run_connected evs w :
  observer_connected w = true ->
  observer_connected (wait_run evs w) = negb (existsb ends_wait evs).
Proof.
  revert w. induction evs as [|ev evs IH]; intros w H; [exact H|].
  rewrite wait_run_cons. cbn [existsb].
  destruct (ends_wait ev) eqn:E.
  - cbn. apply wait_run_disconnected.
    destruct ev as [st|]; [|discriminate]. cbn. rewrite H.
    destruct st; try discriminate E; reflexivity.
  - cbn. apply IH. destruct ev as [st|]; cbn.
    + rewrite H. destruct st; try discriminate E; cbn; rewrite ?H; reflexivity.
    + destruct (timer_armed w); cbn; exact H.
Qed.

(** X7. The observer a wait connects stays connected exactly until the
    kernel reports a ready or bad status; the timer never disconnects
    it. *)
Theorem observer_stays_until_ready_or_bad_status
  (st : Kernel.Status) (evs : list WaitEvent) :
  pending_status st = true ->
  observer_connected (wait_run evs (waitForKernelReady {| Kernel.status := st |}))
  = negb (existsb ends_wait evs).
Proof.
  intros H. rewrite (waitForKernelReady_pending st H).
  apply wait_run_connected. reflexivity.
Qed.

Lemma observer_stays_until_ready_or_bad_status_witness :
  observer_connected
    (wait_run [WaitTimerFires; StatusBecomes Kernel.restarting]
       (waitForKernelReady {| Kernel.status := Kernel.busy |}))
  = negb (existsb ends_wait [WaitTimerFires; StatusBecomes Kernel.restarting]).
Proof.
  exact (observer_stays_until_ready_or_bad_status Kernel.busy
           [WaitTimerFires; StatusBecomes Kernel.restarting] eq_refl).
Defined.


(** *** Results, errors, the parser and the filter *)

Lemma terminal_outcome_one_sided ev r :
  terminal_outcome ev = Some r -> one_sided r = true.
Proof. destruct ev as [[]|]; cbn; intros [= <-]; reflexivity. Qed.

Lemma first_terminal_one_sided evs r :
  first_terminal evs = Some r -> one_sided r = true.
Proof.
  induction evs as [|ev evs IH]; cbn; [discriminate|].
  destruct (terminal_outcome ev) eqn:E; [|exact IH].
  intros [= <-]. eapply terminal_outcome_one_sided, E.
Qed.

(** X9. Whatever [queryKernel] fulfils with carries a payload or an error,
    never both and never neither. *)
Theorem queryKernel_result_is_one_sided
  (code : string) (sessionContext : option Kernel.SessionContext) (w : World)
  (q : QueryResult) :
  queryKernel code sessionContext w = Fulfilled q ->
  one_sided q = true.
Proof.
  unfold queryKernel. destruct (kernel_of sessionContext) as [kernel|];
    [|intros [= <-]; reflexivity].
  destruct (ready _) as [|[]|e]; [discriminate| |].
  - destruct (exec_run_first_terminal (exec_events w) requestExecute
                eq_refl eq_refl eq_refl) as (E1 & _).
    rewrite E1. destruct (first_terminal _) eqn:E; [|discriminate].
    intros [= <-]. eapply first_terminal_one_sided, E.
  - intros [= <-]. destruct e; reflexivity.
Qed.

Lemma queryKernel_result_is_one_sided_witness :
  one_sided
    (mkQueryResult None
       (Some (new_KernelError execution_error
                (Some {| details_ename := Some "NameError";
                         details_evalue := Some "name 'x' is not defined";
                         details_traceback := None |}))))
  = true.
Proof.
  exact (queryKernel_result_is_one_sided "1" (session_with Kernel.idle)
           {| status_events := []; exec_events := name_error |} _ eq_refl).
Defined.

Lemma wait_step_error_kinds w ev :
  (forall e, ready w = Rejected e -> wait_error e) ->
  forall e, ready (wait_step w ev) = Rejected e -> wait_error e.
Proof.
  intros H e. unfold wait_error. destruct ev as [st|]; cbn;
    [destruct (observer_connected w); [destruct st; cbn|]
    |destruct (timer_armed w); cbn];
    try apply H; destruct (ready w) eqn:E; cbn; intros [= <-];
    try (apply H; reflexivity); eauto 6.
Qed.

Lemma wait_run_error_kinds evs w :
  (forall e, ready w = Rejected e -> wait_error e) ->
  forall e, ready (wait_run evs w) = Rejected e -> wait_error e.
Proof.
  revert w. induction evs as [|ev evs IH]; intros w H; [exact H|].
  rewrite wait_run_cons. apply IH, wait_step_error_kinds, H.
Qed.

(** X10. When the readiness wait fails, its error is a [KernelError] of
    kind [dead], [not_ready] or [timeout] built without details, and
    [queryKernel] answers with that very error, whose message is the
    default text of its kind; the fallback of the catch block is never
    needed for the wait's own errors. *)
Theorem queryKernel_readiness_errors
  (code : string) (sessionContext : option Kernel.SessionContext)
  (kernel : Kernel.IKernelConnection) (w : World) (e : exn) :
  kernel_of sessionContext = Some kernel ->
  ready (wait_run (status_events w) (waitForKernelReady kernel)) = Rejected e ->
  exists t,
    (t = dead \/ t = not_ready \/ t = timeout) /\
    e = ExnKernelError (new_KernelError t None) /\
    queryKernel code sessionContext w
    = Fulfilled (mkQueryResult None (Some (new_KernelError t None))) /\
    message (new_KernelError t None) = ERROR_MESSAGES t.
Proof.
  intros Hk Hw.
  destruct (wait_run_error_kinds (status_events w) (waitForKernelReady kernel))
    with (e := e) as (t & Ht & ->); [|exact Hw|].
  { intros e'. unfold wait_error. destruct kernel as [[]]; cbn; intros [= <-]; eauto 6. }
  exists t. split; [exact Ht|]. split; [reflexivity|].
  unfold queryKernel. rewrite Hk, Hw. split; [reflexivity|].
  destruct t; reflexivity.
Qed.

Lemma queryKernel_readiness_errors_witness :
  exists t,
    (t = dead \/ t = not_ready \/ t = timeout) /\
    ExnKernelError (new_KernelError dead None)
    = ExnKernelError (new_KernelError t None) /\
    queryKernel "1" (session_with Kernel.starting)
      {| status_events := [StatusBecomes Kernel.dead]; exec_events := [] |}
    = Fulfilled (mkQueryResult None (Some (new_KernelError t None))) /\
    message (new_KernelError t None) = ERROR_MESSAGES t.
Proof.
  exact (queryKernel_readiness_errors "1" (session_with Kernel.starting)
           {| Kernel.status := Kernel.starting |}
           {| status_events := [StatusBecomes Kernel.dead]; exec_events := [] |}
           (ExnKernelError (new_KernelError dead None)) eq_refl eq_refl).
Defined.

(** X11. The message of a [KernelError] is never empty: it is the engine's
    [ename: evalue] when an [evalue] is given, with [Error] standing in
    for a missing or empty [ename], and the default text of the kind
    otherwise. *)
Theorem KernelError_message_rule
  (t : KernelErrorType) (details : option ErrorDetails) :
  0 < String.length (message (new_KernelError t details)) /\
  message (new_KernelError t None) = ERROR_MESSAGES t /\
  (forall d en ev,
     details = Some d -> details_evalue d = Some ev -> ev <> "" ->
     details_ename d = Some en -> en <> "" ->
     message (new_KernelError t details) = (en ++ ": " ++ ev)%string) /\
  (forall d ev,
     details = Some d -> details_evalue d = Some ev -> ev <> "" ->
     details_ename d = None \/ details_ename d = Some "" ->
     message (new_KernelError t details) = ("Error: " ++ ev)%string) /\
  (forall d,
     details = Some d ->
     details_evalue d = None \/ details_evalue d = Some "" ->
     message (new_KernelError t details) = ERROR_MESSAGES t).
Proof.
  assert (Hbase : 0 < String.length (ERROR_MESSAGES t)) by (destruct t; cbn; lia).
  assert (Hne : forall a b : string, String.eqb (a ++ ": " ++ b)%string "" = false).
  { intros a b. destruct a; reflexivity. }
  assert (Hnz : forall s, s <> "" -> negb (String.eqb s "") = true).
  { intros s Hs. destruct (String.eqb_spec s ""); [contradiction|reflexivity]. }
  split; [|split; [reflexivity|split; [|split]]].
  - unfold new_KernelError. cbn [message].
    destruct details as [d|]; [|exact Hbase].
    destruct (truthy_text (details_evalue d)); [|exact Hbase].
    rewrite Hne, !string_length_app. cbn. lia.
  - intros d en ev -> Hev Hevn Hen Henn. unfold new_KernelError. cbn [message].
    unfold truthy_text. rewrite Hev, Hen, !Hnz by assumption. cbn [default].
    cbn. rewrite Hne. reflexivity.
  - intros d ev -> Hev Hevn Hen. unfold new_KernelError. cbn [message].
    unfold truthy_text at 1. rewrite Hev, Hnz by assumption.
    destruct Hen as [-> | ->]; cbn; destruct ev; try contradiction; reflexivity.
  - intros d -> Hev. unfold new_KernelError. cbn [message].
    destruct Hev as [-> | ->]; reflexivity.
Qed.

Lemma KernelError_message_rule_witness :
  message (new_KernelError execution_error (Some name_error_details))
  = "NameError: name 'x' is not defined".
Proof.
  refine (proj1 (proj2 (proj2
            (KernelError_message_rule execution_error
               (Some name_error_details))))
            name_error_details "NameError" "name 'x' is not defined"
            eq_refl eq_refl _ eq_refl _); discriminate.
Defined.

Lemma replace_from_false_strip s :
  replace_from false s = strip_trailing_quote s.
Proof.
  induction s as [|c s IH]; [reflexivity|].
  cbn [replace_from strip_trailing_quote]. rewrite IH.
  destruct s as [|c' s']; [|rewrite andb_false_r; reflexivity].
  cbn. destruct (Ascii.eqb c "'"); reflexivity.
Qed.

Lemma strip_trailing_length s :
  String.length (strip_trailing_quote s) <= String.length s /\
  String.length s <= String.length (strip_trailing_quote s) + 1.
Proof.
  induction s as [|c s IH]; cbn [strip_trailing_quote]; [cbn; lia|].
  destruct s as [|c' s'].
  - destruct (Ascii.eqb c "'"); cbn; lia.
  - cbn [String.length] in *. lia.
Qed.

(** X12. The replacement with the pattern of [parseKernelOutputJSON] is the
    removal of a leading quote followed by the removal of a trailing
    quote: it shortens a text by at most two characters and touches
    nothing in between. *)
Theorem replace_strips_each_end_once (s : string) :
  replace_edge_quotes s = strip_trailing_quote (strip_leading_quote s) /\
  String.length (replace_edge_quotes s) <= String.length s /\
  String.length s <= String.length (replace_edge_quotes s) + 2.
Proof.
  assert (H : replace_edge_quotes s = strip_trailing_quote (strip_leading_quote s)).
  { unfold replace_edge_quotes. destruct s as [|c rest]; [reflexivity|].
    cbn [replace_from strip_leading_quote]. rewrite replace_from_false_strip.
    destruct (Ascii.eqb c "'") eqn:E; cbn [andb orb]; [reflexivity|].
    cbn [strip_trailing_quote]. rewrite E.
    destruct rest; reflexivity. }
  split; [exact H|]. rewrite H.
  pose proof (strip_trailing_length (strip_leading_quote s)) as (L1 & L2).
  assert (String.length (strip_leading_quote s) <= String.length s /\
          String.length s <= String.length (strip_leading_quote s) + 1) as (M1 & M2).
  { destruct s as [|c rest]; cbn; [lia|]. destruct (Ascii.eqb c "'"); cbn; lia. }
  lia.
Qed.

Lemma filter_startsWith_sublist elems pv l :
  filter_startsWith elems pv = Ok l ->
  sublist l (string_elements (VArr elems)).
Proof.
  revert l. induction elems as [|db elems IH]; intros l; cbn [filter_startsWith].
  - intros [= <-]. constructor.
  - destruct (startsWith db pv) as [keep|] eqn:Es; [|discriminate]. cbn [bind].
    destruct (filter_startsWith elems pv) as [kept|]; [|discriminate]. cbn [bind].
    specialize (IH kept eq_refl). cbn [string_elements] in *.
    destruct db; try discriminate Es. cbn [omap]. intros [= <-].
    destruct keep; constructor; exact IH.
Qed.

(** X13. On any parsed response, well-formed or not, the names
    [fetchFilteredDatabases] returns are texts of the response's
    [databases] array, in their order there. *)
Theorem fetch_returns_only_listed_names
  (tenant : option string) (response : value) (l : list string) :
  filter_by_namespace_prefix tenant response = Ok l ->
  sublist l (string_elements (databases_field response)).
Proof.
  unfold filter_by_namespace_prefix. rewrite get_optional_databases. cbn [bind].
  destruct (truthy (databases_field response)); cbn [negb];
    [|intros [= <-]; apply sublist_nil_l].
  destruct (get response "prefix") as [record|]; [|discriminate]. cbn [bind].
  destruct (get record (selected_key tenant)) as [pv|]; [|discriminate]. cbn [bind].
  destruct (truthy pv); [|intros [= <-]; apply sublist_nil_l].
  destruct (databases_field response); try discriminate.
  apply filter_startsWith_sublist.
Qed.

Lemma fetch_returns_only_listed_names_witness :
  sublist ["acme_orders"; "acme_users"]
    (string_elements (databases_field (to_value acme_response))).
Proof.
  exact (fetch_returns_only_listed_names (Some "acme") (to_value acme_response)
           ["acme_orders"; "acme_users"] eq_refl).
Defined.

Lemma filter_startsWith_poisoned elems p :
  existsb (fun x => negb (is_text x)) elems = true ->
  filter_startsWith elems (VStr p) = Throw ExnTypeError.
Proof.
  induction elems as [|db elems IH]; [discriminate|].
  cbn [existsb filter_startsWith]. destruct db; cbn; try reflexivity.
  intros H. rewrite (IH H). reflexivity.
Qed.

(** X14. With a non-empty prefix selected, one entry of [databases] that is
    not a text makes the whole call throw a TypeError, whatever the other
    entries are. *)
Theorem fetch_throws_on_a_non_text_entry
  (tenant : option string) (props pprops : list (string * value))
  (elems : list value) (p : string) :
  lookup_property "databases" props = Some (VArr elems) ->
  lookup_property "prefix" props = Some (VObj pprops) ->
  lookup_property (selected_key tenant) pprops = Some (VStr p) ->
  p <> "" ->
  existsb (fun x => negb (is_text x)) elems = true ->
  filter_by_namespace_prefix tenant (VObj props) = Throw ExnTypeError /\
  ApiQueries.fetchFilteredDatabases (Fulfilled (VObj props)) tenant
  = Rejected ExnTypeError.
Proof.
  intros Hd Hp Hs Hne He.
  assert (H : filter_by_namespace_prefix tenant (VObj props) = Throw ExnTypeError).
  { unfold filter_by_namespace_prefix. cbn [get_optional get bind].
    rewrite Hd, Hp. cbn. rewrite Hs. cbn.
    destruct (String.eqb_spec p ""); [contradiction|]. cbn.
    apply filter_startsWith_poisoned, He. }
  split; [exact H|]. unfold ApiQueries.fetchFilteredDatabases. cbn [await].
  rewrite H. reflexivity.
Qed.

Lemma fetch_throws_on_a_non_text_entry_witness :
  filter_by_namespace_prefix None (VObj (properties_of mixed_response))
  = Throw ExnTypeError /\
  ApiQueries.fetchFilteredDatabases
    (Fulfilled (VObj (properties_of mixed_response))) None
  = Rejected ExnTypeError.
Proof.
  refine (fetch_throws_on_a_non_text_entry None (properties_of mixed_response)
            (prefix_properties_of mixed_response)
            [VStr "acme_orders"; VNum "7"] "acme_" eq_refl eq_refl eq_refl _
            eq_refl); discriminate.
Defined.

(** *** The server client and the tree provider *)

Lemma eqb_append_eq_false (a b : string) :
  String.eqb (a ++ "=" ++ b)%string "" = false.
Proof. destruct a; reflexivity. Qed.

Lemma params_toString_nonempty enc p ps :
  String.eqb (Api.params_toString enc (p :: ps)) "" = false.
Proof.
  destruct p as [k v]. cbn [Api.params_toString].
  destruct ps; apply eqb_append_eq_false.
Qed.

(** X15. The URL [serverGet] asks for carries a query string exactly when
    there is at least one parameter.  So [fetchDatabases] without a tenant
    asks for the bare path, and with a tenant, the empty text included, it
    appends the encoded [tenant] pair. *)
Theorem query_string_only_with_parameters
  (env : Api.Environment) (path : string) :
  let bare := Api.URLExt_join env (Api.baseUrl env) Api.API_BASE path in
  Api.request_url env path None = bare /\
  Api.request_url env path (Some []) = bare /\
  (forall p ps,
     Api.request_url env path (Some (p :: ps))
     = (bare ++ "?" ++ Api.params_toString (Api.urlencode env) (p :: ps))%string) /\
  Api.request_url env path (Some (Api.tenant_params None)) = bare /\
  (forall t,
     Api.request_url env path (Some (Api.tenant_params (Some t)))
     = (bare ++ "?" ++ Api.urlencode env "tenant" ++ "="
        ++ Api.urlencode env t)%string).
Proof.
  cbv zeta. split; [reflexivity|]. split; [reflexivity|].
  assert (H : forall p ps,
     Api.request_url env path (Some (p :: ps))
     = (Api.URLExt_join env (Api.baseUrl env) Api.API_BASE path ++ "?"
        ++ Api.params_toString (Api.urlencode env) (p :: ps))%string).
  { intros p ps. unfold Api.request_url.
    rewrite params_toString_nonempty. reflexivity. }
  split; [exact H|]. split; [reflexivity|].
  intros t. cbn [Api.tenant_params Api.params_set]. rewrite H. reflexivity.
Qed.

Lemma serverGet_answered env path params response :
  Api.makeRequest env (Api.request_url env path params) = Fulfilled response ->
  Api.serverGet env path params
  = if negb (Api.ok response)
    then await (Api.failure_message response) (fun message =>
         settled (Api.throw_new_Error message))
    else Api.json response.
Proof. intros H. unfold Api.serverGet. rewrite H. reflexivity. Qed.

Lemma throw_new_Error_rejects (message : value) :
  exists e, @Api.throw_new_Error value message = Throw e.
Proof.
  unfold Api.throw_new_Error. destruct message; eauto;
    destruct (ToString _); eauto.
Qed.

Lemma failure_message_settled response data :
  Api.json response = Fulfilled data ->
  Api.failure_message response
  = Fulfilled (if truthy (error_field data) then error_field data
               else VStr ("Request failed: "
                          ++ KernelCommunication.decimal (Api.status response))).
Proof.
  intros H. unfold Api.failure_message, error_field. rewrite H.
  destruct (get data "error"); reflexivity.
Qed.

Lemma serverGet_failed env path params response data :
  Api.makeRequest env (Api.request_url env path params) = Fulfilled response ->
  Api.ok response = false ->
  Api.json response = Fulfilled data ->
  Api.serverGet env path params
  = settled
      (Api.throw_new_Error
         (if truthy (error_field data) then error_field data
          else VStr ("Request failed: "
                     ++ KernelCommunication.decimal (Api.status response)))).
Proof.
  intros Hreq Hok Hj. rewrite (serverGet_answered _ _ _ _ Hreq), Hok.
  cbn [negb]. rewrite (failure_message_settled _ _ Hj). reflexivity.
Qed.

Lemma serverGet_failed_with_message env path params response data msg :
  Api.makeRequest env (Api.request_url env path params) = Fulfilled response ->
  Api.ok response = false ->
  Api.json response = Fulfilled data ->
  error_field data = VStr msg -> msg <> "" ->
  Api.serverGet env path params = Rejected (ExnError msg).
Proof.
  intros Hreq Hok Hj He Hne. rewrite (serverGet_failed _ _ _ _ _ Hreq Hok Hj), He.
  cbn. destruct (String.eqb_spec msg ""); [contradiction|]. reflexivity.
Qed.

(** X16. On a response that is not ok [serverGet] always rejects: with the
    body's [error] text as the message when the body is JSON and holds a
    non-empty one, and with [Request failed: status] when the body has no
    truthy [error] or is not JSON. *)
Theorem serverGet_rejects_failed_responses
  (env : Api.Environment) (path : string) (params : option Api.URLSearchParams)
  (response : Api.Response) :
  Api.makeRequest env (Api.request_url env path params) = Fulfilled response ->
  Api.ok response = false ->
  let fallback :=
    ExnError ("Request failed: "
              ++ KernelCommunication.decimal (Api.status response)) in
  (forall data, Api.json response = Fulfilled data ->
     exists e, Api.serverGet env path params = Rejected e) /\
  (forall data msg, Api.json response = Fulfilled data ->
     error_field data = VStr msg -> msg <> "" ->
     Api.serverGet env path params = Rejected (ExnError msg)) /\
  (forall data, Api.json response = Fulfilled data ->
     truthy (error_field data) = false ->
     Api.serverGet env path params = Rejected fallback) /\
  (forall e, Api.json response = Rejected e ->
     Api.serverGet env path params = Rejected fallback).
Proof.
  intros Hreq Hok fallback. split; [|split; [|split]].
  - intros data Hj. rewrite (serverGet_failed _ _ _ _ _ Hreq Hok Hj).
    destruct (throw_new_Error_rejects
                (if truthy (error_field data) then error_field data
                 else VStr ("Request failed: "
                            ++ KernelCommunication.decimal (Api.status response))))
      as (e & ->). eauto.
  - intros data msg Hj He Hne.
    apply (serverGet_failed_with_message _ _ _ _ _ _ Hreq Hok Hj He Hne).
  - intros data Hj Hf. rewrite (serverGet_failed _ _ _ _ _ Hreq Hok Hj), Hf.
    reflexivity.
  - intros e Hj. rewrite (serverGet_answered _ _ _ _ Hreq), Hok. cbn [negb].
    unfold Api.failure_message. rewrite Hj. reflexivity.
Qed.

Lemma serverGet_rejects_failed_responses_witness :
  Api.serverGet acme_page "databases" (Some (Api.tenant_params (Some "acme")))
  = Rejected (ExnError "Not a member of acme").
Proof.
  refine (proj1 (proj2
            (serverGet_rejects_failed_responses acme_page "databases"
               (Some (Api.tenant_params (Some "acme"))) forbidden
               eq_refl eq_refl))
            (VObj [("error", VStr "Not a member of acme")])
            "Not a member of acme" eq_refl eq_refl _); discriminate.
Defined.

(** X17. The server-backed [fetchFilteredDatabases] passes on a failure of
    the request and the server's own error message unchanged, and on an ok
    response with a well-formed body returns the names filtered by the
    selected prefix. *)
Theorem fetchFilteredDatabases_over_http
  (env : Api.Environment) (tenant : option string) :
  let url := Api.request_url env "databases" (Some (Api.tenant_params tenant)) in
  let fetch :=
    ApiQueries.fetchFilteredDatabases (Api.fetchDatabases env tenant) tenant in
  (forall e, Api.makeRequest env url = Rejected e -> fetch = Rejected e) /\
  (forall response data msg,
     Api.makeRequest env url = Fulfilled response ->
     Api.ok response = false ->
     Api.json response = Fulfilled data ->
     error_field data = VStr msg -> msg <> "" ->
     fetch = Rejected (ExnError msg)) /\
  (forall response r,
     Api.makeRequest env url = Fulfilled response ->
     Api.ok response = true ->
     Api.json response = Fulfilled (to_value r) ->
     fetch = Fulfilled (expected_databases (selected_prefix tenant r) (databases r))).
Proof.
  cbv zeta. unfold ApiQueries.fetchFilteredDatabases, Api.fetchDatabases.
  split; [|split].
  - intros e H. unfold Api.serverGet. rewrite H. reflexivity.
  - intros response data msg Hreq Hok Hj He Hne.
    rewrite (serverGet_failed_with_message _ _ _ _ _ _ Hreq Hok Hj He Hne).
    reflexivity.
  - intros response r Hreq Hok Hj.
    rewrite (serverGet_answered _ _ _ _ Hreq), Hok, Hj. cbn [negb await].
    rewrite filter_typed. reflexivity.
Qed.

Lemma fetchFilteredDatabases_over_http_witness :
  ApiQueries.fetchFilteredDatabases (Api.fetchDatabases acme_page None) None
  = Fulfilled
      (expected_databases (selected_prefix None acme_response)
         (databases acme_response)) /\
  ApiQueries.fetchFilteredDatabases
    (Api.fetchDatabases acme_page (Some "acme")) (Some "acme")
  = Rejected (ExnError "Not a member of acme").
Proof.
  split.
  - exact (proj2 (proj2 (fetchFilteredDatabases_over_http acme_page None))
             {| Api.ok := true; Api.status := 200;
                Api.json := Fulfilled (to_value acme_response) |}
             acme_response eq_refl eq_refl eq_refl).
  - refine (proj1 (proj2 (fetchFilteredDatabases_over_http acme_page
                            (Some "acme")))
              forbidden (VObj [("error", VStr "Not a member of acme")])
              "Not a member of acme" eq_refl eq_refl eq_refl eq_refl _);
      discriminate.
Defined.



Lemma existsb_eqb_elem (x : string) (l : list string) :
  existsb (String.eqb x) l = true <-> x ∈ l.
Proof.
  induction l as [|y l IH]; cbn.
  - split; [discriminate|]. intros H. inversion H.
  - rewrite orb_true_iff, IH, elem_of_cons.
    destruct (String.eqb_spec x y); split; intros [|]; auto; discriminate.
Qed.

Lemma Set_add_spec acc x :
  (x ∈ acc -> BerdlProvider.Set_add acc x = acc) /\
  (x ∉ acc -> BerdlProvider.Set_add acc x = acc ++ [x]).
Proof.
  unfold BerdlProvider.Set_add.
  destruct (existsb (String.eqb x) acc) eqn:E.
  - apply existsb_eqb_elem in E. split; [reflexivity|contradiction].
  - split; [|reflexivity]. intros H. apply existsb_eqb_elem in H. congruence.
Qed.

Lemma Set_fold_NoDup l acc :
  NoDup acc -> NoDup (fold_left BerdlProvider.Set_add l acc).
Proof.
  revert acc. induction l as [|x l IH]; intros acc H; [exact H|].
  cbn [fold_left]. apply IH.
  destruct (decide (x ∈ acc)) as [Hin|Hnin].
  - rewrite (proj1 (Set_add_spec acc x) Hin). exact H.
  - rewrite (proj2 (Set_add_spec acc x) Hnin). apply NoDup_app.
    split; [exact H|]. split; [|apply NoDup_singleton].
    intros y Hy Hy'. apply list_elem_of_singleton in Hy'. subst. contradiction.
Qed.

Lemma Set_fold_elem l acc y :
  y ∈ fold_left BerdlProvider.Set_add l acc <-> y ∈ acc \/ y ∈ l.
Proof.
  revert acc. induction l as [|x l IH]; intros acc.
  - cbn. split; [auto|]. intros [H|H]; [exact H|inversion H].
  - cbn [fold_left]. rewrite IH, elem_of_cons.
    destruct (decide (x ∈ acc)) as [Hin|Hnin].
    + rewrite (proj1 (Set_add_spec acc x) Hin). split; [tauto|].
      intros [H|[->|H]]; auto.
    + rewrite (proj2 (Set_add_spec acc x) Hnin), elem_of_app,
        list_elem_of_singleton. tauto.
Qed.

Lemma Set_fold_sublist l acc :
  sublist (fold_left BerdlProvider.Set_add l acc) (acc ++ l).
Proof.
  revert acc. induction l as [|x l IH]; intros acc.
  - cbn. rewrite app_nil_r. reflexivity.
  - cbn [fold_left]. destruct (decide (x ∈ acc)) as [Hin|Hnin].
    + rewrite (proj1 (Set_add_spec acc x) Hin). etransitivity; [apply IH|].
      apply sublist_app; [reflexivity|]. apply sublist_cons. reflexivity.
    + rewrite (proj2 (Set_add_spec acc x) Hnin).
      etransitivity; [apply IH|]. rewrite <- app_assoc. reflexivity.
Qed.

Lemma tenant_ids_NoDup names :
  NoDup names ->
  NoDup (BerdlProvider.PERSONAL_NODE_ID
         :: map (fun n => BerdlProvider.id (BerdlProvider.tenant_node n)) names).
Proof.
  intros H. constructor.
  - intros Hin. apply list_elem_of_In, in_map_iff in Hin.
    destruct Hin as (n & Hn & _). discriminate Hn.
  - induction H as [|n names Hn Hnd IH]; cbn [map]; constructor; [|exact IH].
    intros Hin. apply list_elem_of_In, in_map_iff in Hin.
    destruct Hin as (n' & Heq & Hin). cbn in Heq.
    apply (append_inj_l "tenant://") in Heq. subst.
    apply Hn, list_elem_of_In, Hin.
Qed.

(** X18. [fetchRootNodes] puts the personal node first, named after the
    user, and after it one tenant node for each distinct group name with
    its [ro] suffix removed, in the order of the group list; all node ids
    are distinct. *)
Theorem fetchRootNodes_lists_each_tenant_once
  (g : BerdlProvider.IGroupsResponse) :
  let gs := default [] (BerdlProvider.groups g) in
  exists names,
    BerdlProvider.fetchRootNodes (Fulfilled g)
    = Fulfilled (BerdlProvider.personal_node g
                 :: map BerdlProvider.tenant_node names) /\
    BerdlProvider.id (BerdlProvider.personal_node g)
    = BerdlProvider.PERSONAL_NODE_ID /\
    BerdlProvider.name (BerdlProvider.personal_node g) = BerdlProvider.username g /\
    NoDup names /\
    (forall n, n ∈ names <-> exists grp, grp ∈ gs /\ n = BerdlProvider.strip_ro grp) /\
    sublist names (map BerdlProvider.strip_ro gs) /\
    NoDup (map BerdlProvider.id
             (BerdlProvider.personal_node g :: map BerdlProvider.tenant_node names)).
Proof.
  cbv zeta. exists (BerdlProvider.Set_from (map BerdlProvider.strip_ro
                                              (default [] (BerdlProvider.groups g)))).
  assert (Hnd : NoDup (BerdlProvider.Set_from
                         (map BerdlProvider.strip_ro
                            (default [] (BerdlProvider.groups g))))).
  { apply Set_fold_NoDup. constructor. }
  split; [|split; [reflexivity|split; [reflexivity|split; [exact Hnd|split; [|split]]]]].
  - unfold BerdlProvider.fetchRootNodes. cbn [await].
    destruct (BerdlProvider.groups g); reflexivity.
  - intros n. unfold BerdlProvider.Set_from. rewrite Set_fold_elem.
    rewrite elem_of_nil, list_elem_of_In, in_map_iff. split.
    + intros [[]|(grp & <- & Hin)]. exists grp. split; [apply list_elem_of_In, Hin|reflexivity].
    + intros (grp & Hin & ->). right. exists grp. split; [reflexivity|apply list_elem_of_In, Hin].
  - apply (Set_fold_sublist _ []).
  - cbn [map]. rewrite map_map. apply tenant_ids_NoDup, Hnd.
Qed.



Lemma child_ids_NoDup (f : string -> BerdlProvider.BaseTreeNodeType) (p : string)
  (names : list string) :
  (forall n, BerdlProvider.id (f n) = (p ++ "/" ++ n)%string) ->
  NoDup names -> NoDup (map BerdlProvider.id (map f names)).
Proof.
  intros Hf H. induction H as [|n names Hn Hnd IH]; cbn [map]; constructor;
    [|exact IH].
  intros Hin. apply list_elem_of_In in Hin. rewrite map_map in Hin.
  apply in_map_iff in Hin. destruct Hin as (n' & Heq & Hin).
  rewrite !Hf in Heq. apply append_inj_l in Heq.
  apply (append_inj_l "/") in Heq. subst. apply Hn, list_elem_of_In, Hin.
Qed.

Lemma children_shape (f : string -> BerdlProvider.BaseTreeNodeType)
  (node : BerdlProvider.BaseTreeNodeType) (t : BerdlProvider.BerdlNodeType)
  (names : list string) :
  (forall n, BerdlProvider.id (f n)
             = (BerdlProvider.id node ++ "/" ++ n)%string /\
             BerdlProvider.name (f n) = n /\ BerdlProvider.type (f n) = t) ->
  map BerdlProvider.name (map f names) = names /\
  (forall k, k ∈ map f names ->
     BerdlProvider.id k
     = (BerdlProvider.id node ++ "/" ++ BerdlProvider.name k)%string /\
     BerdlProvider.type k = t) /\
  (NoDup names -> NoDup (map BerdlProvider.id (map f names))).
Proof.
  intros Hf. split; [|split].
  - rewrite map_map. induction names as [|n names IH]; cbn; [reflexivity|].
    rewrite IH, (proj1 (proj2 (Hf n))). reflexivity.
  - intros k Hk. apply list_elem_of_In, in_map_iff in Hk.
    destruct Hk as (n & <- & _). destruct (Hf n) as (H1 & H2 & H3).
    rewrite H1, H2, H3. auto.
  - apply (child_ids_NoDup f (BerdlProvider.id node)). intros n. apply Hf.
Qed.

(** X20. Every child [fetchChildNodes] returns has the id of its parent
    followed by a slash and its own name, and is a database under a
    personal or tenant node and a table under a database; so children
    with distinct names have distinct ids.  A table has no children, and
    a database whose table list is null has none either. *)
Theorem children_extend_the_parent_id
  (fetchDatabases : option string -> promise (list string))
  (fetchTables : string -> promise (option (list string)))
  (node : BerdlProvider.BaseTreeNodeType)
  (kids : list BerdlProvider.BaseTreeNodeType) :
  BerdlProvider.fetchChildNodes fetchDatabases fetchTables node = Fulfilled kids ->
  (forall k, k ∈ kids ->
     BerdlProvider.id k
     = (BerdlProvider.id node ++ "/" ++ BerdlProvider.name k)%string /\
     BerdlProvider.type k
     = match BerdlProvider.type node with
       | BerdlProvider.database => BerdlProvider.table
       | _ => BerdlProvider.database
       end) /\
  (NoDup (map BerdlProvider.name kids) -> NoDup (map BerdlProvider.id kids)) /\
  (BerdlProvider.type node = BerdlProvider.table -> kids = []) /\
  (BerdlProvider.type node = BerdlProvider.database ->
   fetchTables (BerdlProvider.name node) = Fulfilled None -> kids = []).
Proof.
  unfold BerdlProvider.fetchChildNodes.
  destruct (BerdlProvider.type node) eqn:Et.
  - destruct (fetchDatabases None) as [|dbs|]; try discriminate.
    cbn [await]. intros [= <-].
    destruct (children_shape (BerdlProvider.database_child node) node
                BerdlProvider.database dbs) as (H1 & H2 & H3); [cbn; auto|].
    rewrite H1. repeat split; try discriminate; try apply H2; auto.
  - destruct (fetchDatabases (Some _)) as [|dbs|]; try discriminate.
    cbn [await]. intros [= <-].
    destruct (children_shape (BerdlProvider.database_child node) node
                BerdlProvider.database dbs) as (H1 & H2 & H3); [cbn; auto|].
    rewrite H1. repeat split; try discriminate; try apply H2; auto.
  - destruct (fetchTables _) as [|[ts|]|]; try discriminate; cbn [await];
      intros [= <-].
    + destruct (children_shape (BerdlProvider.table_child node) node
                  BerdlProvider.table ts) as (H1 & H2 & H3); [cbn; auto|].
      rewrite H1. repeat split; try discriminate; try apply H2; auto.
    + split; [intros k Hk; inversion Hk|]. repeat split; auto.
  - intros [= <-]. split; [intros k Hk; inversion Hk|]. repeat split; auto.
Qed.

Lemma children_extend_the_parent_id_witness :
  BerdlProvider.id
    (BerdlProvider.database_child (BerdlProvider.tenant_node "acme") "acme_users")
  = "tenant://acme/acme_users" /\
  BerdlProvider.type
    (BerdlProvider.database_child (BerdlProvider.tenant_node "acme") "acme_users")
  = BerdlProvider.database.
Proof.
  apply (proj1 (children_extend_the_parent_id catalog tables_of
                  (BerdlProvider.tenant_node "acme")
                  (map (BerdlProvider.database_child
                          (BerdlProvider.tenant_node "acme"))
                     ["acme_orders"; "acme_users"]) eq_refl)).
  right. left.
Defined.

(** X21. A table reached in the tree through a tenant and one of its
    databases has the id [tenant://T/D/table], and its menu opens a tab
    whose target names that tenant, database and table, which the tab
    content takes as its initial selection. *)
Theorem tree_path_opens_matching_tab
  (fetchDatabases : option string -> promise (list string))
  (fetchTables : string -> promise (option (list string)))
  (T D tbl : string) (dbs ts : list string) :
  fetchDatabases (Some T) = Fulfilled dbs -> D ∈ dbs ->
  fetchTables D = Fulfilled (Some ts) -> tbl ∈ ts ->
  exists kids dn grandkids tb,
    BerdlProvider.fetchChildNodes fetchDatabases fetchTables
      (BerdlProvider.tenant_node T) = Fulfilled kids /\
    dn ∈ kids /\
    BerdlProvider.fetchChildNodes fetchDatabases fetchTables dn
    = Fulfilled grandkids /\
    tb ∈ grandkids /\
    BerdlProvider.id tb = ("tenant://" ++ T ++ "/" ++ D ++ "/" ++ tbl)%string /\
    BerdlProvider.open_in_tab (BerdlProvider.tenant_node T)
    = TenantTab.TenantTarget (Some T) /\
    BerdlProvider.open_in_tab dn = TenantTab.DatabaseTarget D (Some T) /\
    BerdlProvider.open_in_tab tb = TenantTab.TableTarget tbl (Some D) (Some T) /\
    TenantTabContent.getInitialDatabase (BerdlProvider.open_in_tab tb) = Some D /\
    TenantTabContent.getInitialTable (BerdlProvider.open_in_tab tb) = Some tbl /\
    TenantTabContent.getInitialDatabase (BerdlProvider.open_in_tab dn) = Some D /\
    TenantTabContent.getInitialTable (BerdlProvider.open_in_tab dn) = None.
Proof.
  intros Hd HD Ht Htbl.
  set (tn := BerdlProvider.tenant_node T).
  set (dn := BerdlProvider.database_child tn D).
  set (tb := BerdlProvider.table_child dn tbl).
  exists (map (BerdlProvider.database_child tn) dbs), dn,
         (map (BerdlProvider.table_child dn) ts), tb.
  split; [unfold BerdlProvider.fetchChildNodes; cbn; rewrite Hd; reflexivity|].
  split; [apply list_elem_of_In, in_map, list_elem_of_In, HD|].
  split; [unfold BerdlProvider.fetchChildNodes; cbn; rewrite Ht; reflexivity|].
  split; [apply list_elem_of_In, in_map, list_elem_of_In, Htbl|].
  split; [unfold tb, dn, tn; cbn [BerdlProvider.id BerdlProvider.table_child
                                  BerdlProvider.database_child
                                  BerdlProvider.tenant_node];
          rewrite !string_app_assoc; reflexivity|].
  repeat split.
Qed.

Lemma tree_path_opens_matching_tab_witness :
  exists tb,
    BerdlProvider.id tb = "tenant://acme/acme_orders/items" /\
    BerdlProvider.open_in_tab tb
    = TenantTab.TableTarget "items" (Some "acme_orders") (Some "acme").
Proof.
  destruct (tree_path_opens_matching_tab catalog tables_of
              "acme" "acme_orders" "items"
              ["acme_orders"; "acme_users"] ["items"; "orders"])
    as (kids & dn & grandkids & tb & _ & _ & _ & _ & Hid & _ & _ & Htab & _);
    [reflexivity|left|reflexivity|left|].
  exists tb. split; [exact Hid|exact Htab].
Defined.


